(** * The Linkd search client ([ar-components-service/src/utils/linkd-api.ts])

    A shallow embedding of the [LinkdAPI] class: the synchronous operations
    ([searchProfiles], [findMutualConnections], [getProfileDetails],
    [requestIntroduction], [handleApiError]) as programs of a small
    state-and-exception monad, and the streamed search
    ([searchProfilesWebSocket]) as the closure it allocates together with
    the four channel handlers and the deadline timer, run over a sequence
    of events.

    Modelling conventions.
    - A JavaScript value is a [value]; TypeScript's annotations are not
      checked at run time, so whatever arrives from the network is an
      arbitrary [value].  Numbers are exact rationals ([Q]); a string is a
      sequence of one-byte characters.
    - [axios] and [ws] are the environment: an HTTP call is answered by an
      oracle [net], a channel delivers a list of [event]s.  [JSON.parse] is
      not re-implemented: an inbound frame is either the value it parses to
      or unparseable.
    - [Date.now()] is read from the event that triggers the handler.
    - A console line is kept as the ordered pieces it is built from.  A
      template literal converts what it interpolates to text, which throws
      for an object that carries its own [toString]; an extra argument of a
      console call is printed by inspection, which does not.
    - A call that spreads more arguments than the engine accepts throws a
      [RangeError]; the bound is the engine's ([max_arguments]). *)

From Stdlib Require Import String List ZArith QArith Bool Lia.
Import ListNotations.
Local Close Scope Q_scope.
Local Open Scope string_scope.
Set Warnings "-register-all".

(* ================================================================== *)
(** ** JavaScript values *)

Inductive value : Type :=
| VUndefined
| VNull
| VBool (b : bool)
| VNum (q : Q)
| VStr (s : string)
| VArr (xs : list value)
| VObj (fields : list (string * value)).

Definition num_of_Z (z : Z) : value := VNum (inject_Z z).
Definition num_of_nat (n : nat) : value := num_of_Z (Z.of_nat n).

(** What can be thrown and caught. *)
Record AxiosResponse := { status : Z; data : value }.

Record AxiosError := { message : string; response : option AxiosResponse }.

Inductive exn : Type :=
| TypeError                      (* property read on null/undefined, spread of a non-iterable *)
| SyntaxError                    (* JSON.parse *)
| IsAxiosError (e : AxiosError)  (* axios.isAxiosError(error) holds *)
| Thrown (v : value)             (* anything else *)
| RangeError.                    (* too many arguments in one call *)

(** ToBoolean. *)
Definition truthy (v : value) : bool :=
  match v with
  | VUndefined | VNull => false
  | VBool b => b
  | VNum q => negb (Qeq_bool q 0)
  | VStr s => negb (String.eqb s "")
  | VArr _ | VObj _ => true
  end.

(** Whether [ToString] succeeds.  Primitives always convert; an array is
    joined, so it converts when its entries do; an object converts through
    [Object.prototype.toString] unless it has an own [toString], which in a
    value read from JSON is never callable and leaves only [valueOf], which
    gives no primitive. *)
Fixpoint converts (v : value) : bool :=
  match v with
  | VArr xs =>
      (fix all (l : list value) : bool :=
         match l with
         | [] => true
         | x :: rest => converts x && all rest
         end) xs
  | VObj fields =>
      (fix own (l : list (string * value)) : bool :=
         match l with
         | [] => true
         | (k, _) :: rest => negb (String.eqb k "toString") && own rest
         end) fields
  | _ => true
  end.

(** [a || b] when [b] has no effect. *)
Definition js_or (a b : value) : value := if truthy a then a else b.

(** [v === 'lit'] against a string literal. *)
Definition is_str (v : value) (lit : string) : bool :=
  match v with
  | VStr s => String.eqb s lit
  | _ => false
  end.

(** [v === n] against an integer literal. *)
Definition is_int (v : value) (n : Z) : bool :=
  match v with
  | VNum q => Qeq_bool q (inject_Z n)
  | _ => false
  end.

Fixpoint lookup (k : string) (fields : list (string * value)) : option value :=
  match fields with
  | [] => None
  | (k', v) :: rest => if String.eqb k k' then Some v else lookup k rest
  end.

(** [obj[k] = v] on an own-property list: an existing key keeps its place. *)
Fixpoint assign (k : string) (v : value) (fields : list (string * value))
  : list (string * value) :=
  match fields with
  | [] => [(k, v)]
  | (k', v') :: rest =>
      if String.eqb k k' then (k, v) :: rest else (k', v') :: assign k v rest
  end.

(** [{...acc, ...src}]: copy the own properties of [src] in order. *)
Definition spread_fields (src acc : list (string * value)) : list (string * value) :=
  fold_left (fun o kv => assign (fst kv) (snd kv) o) src acc.

(** [v.k] for the property names the client reads.  Reading a property of
    [null] or [undefined] throws; arrays and strings answer [length]. *)
Definition get_prop (v : value) (k : string) : exn + value :=
  match v with
  | VUndefined | VNull => inl TypeError
  | VObj fields =>
      inr (match lookup k fields with Some x => x | None => VUndefined end)
  | VArr xs => inr (if String.eqb k "length" then num_of_nat (List.length xs) else VUndefined)
  | VStr s => inr (if String.eqb k "length" then num_of_nat (String.length s) else VUndefined)
  | VBool _ | VNum _ => inr VUndefined
  end.

(** [v?.k]. *)
Definition get_opt (v : value) (k : string) : value :=
  match get_prop v k with
  | inl _ => VUndefined
  | inr x => x
  end.

Fixpoint chars (s : string) : list value :=
  match s with
  | EmptyString => []
  | String c rest => VStr (String c EmptyString) :: chars rest
  end.

(** The elements [...v] contributes to an argument list. *)
Definition iterate (v : value) : exn + list value :=
  match v with
  | VArr xs => inr xs
  | VStr s => inr (chars s)
  | _ => inl TypeError
  end.

(* ================================================================== *)
(** ** Console *)

Inductive level := Log | Warn | Error.

Inductive piece : Type :=
| Lit (s : string)          (* literal text *)
| Interp (v : value)        (* [${v}] in a template literal *)
| Inspected (v : value)     (* a further argument of the console call *)
| Caught (e : exn).         (* a caught error passed as an argument *)

Definition log_entry : Type := level * list piece.

Class Console (S : Type) := { emit : log_entry -> S -> S }.

#[export] Instance Console_list : Console (list log_entry) :=
  { emit := fun e l => (l ++ [e])%list }.

(* ================================================================== *)
(** ** Programs: state and exceptions

    A thrown exception keeps the state reached so far, as a [catch] block
    sees the effects of the statements that ran before the [throw]. *)

Definition M (S A : Type) : Type := S -> (exn + A) * S.

Definition ret {S A} (a : A) : M S A := fun s => (inr a, s).

Definition bind {S A B} (m : M S A) (k : A -> M S B) : M S B :=
  fun s =>
    match m s with
    | (inl e, s') => (inl e, s')
    | (inr a, s') => k a s'
    end.

Definition throw {S A} (e : exn) : M S A := fun s => (inl e, s).

Definition try_catch {S A} (body : M S A) (handler : exn -> M S A) : M S A :=
  fun s =>
    match body s with
    | (inl e, s') => handler e s'
    | (inr a, s') => (inr a, s')
    end.

Definition lift {S A} (r : exn + A) : M S A := fun s => (r, s).

Definition modify {S} (f : S -> S) : M S unit := fun s => (inr tt, f s).

Definition gets {S A} (f : S -> A) : M S A := fun s => (inr (f s), s).

Declare Scope js_scope.
Delimit Scope js_scope with js.
Notation "x <- m ;; k" := (bind m (fun x => k))
  (at level 61, m at next level, right associativity) : js_scope.
Notation "m ;; k" := (bind m (fun _ => k))
  (at level 61, right associativity) : js_scope.
Local Open Scope js_scope.

Definition console {S} `{Console S} (l : level) (ps : list piece) : M S unit :=
  modify (emit (l, ps)).

Definition get {S} (v : value) (k : string) : M S value := lift (get_prop v k).

(** [${v}] for a value whose type is not known: the conversion to text
    throws when [v] does not convert.  Interpolated strings and numbers are
    written as their [Interp] piece directly. *)
Definition interpolate {S} (v : value) : M S piece :=
  if converts v then ret (Interp v) else throw TypeError.

(** [a || b] where evaluating [b] may throw: [b] runs only when [a] is falsy. *)
Definition or_else {S} (a : value) (b : M S value) : M S value :=
  if truthy a then ret a else b.

(* ================================================================== *)
(** ** Interfaces *)

Inductive SortOrder := asc | desc.

Record LinkdSearchOptions := {
  query : string;
  filters : option (list (string * value));
  maxResults : option Q;
  includeDetails : option bool;
  sortBy : option string;
  sortOrder : option SortOrder
}.

Record LinkdIntroRequest := {
  fromId : string;
  toId : string;
  intro_message : string;
  context : string
}.

Record LinkdSearchResult := {
  profiles : value;
  totalCount : value;
  queryExecutionTime : value
}.

Record LinkdAPI := {
  apiKey : string;
  baseUrl : string;
  timeout : Z
}.

(** An optional property holds [undefined] when it is missing. *)
Definition opt {A} (f : A -> value) (o : option A) : value :=
  match o with
  | Some a => f a
  | None => VUndefined
  end.

Definition of_order (o : SortOrder) : value :=
  match o with
  | asc => VStr "asc"
  | desc => VStr "desc"
  end.

Definition of_request (r : LinkdIntroRequest) : value :=
  VObj [("fromId", VStr (fromId r)); ("toId", VStr (toId r));
        ("message", VStr (intro_message r)); ("context", VStr (context r))].

(** [new LinkdAPI(apiKey)]. *)
Definition constructor (key : string) : M (list log_entry) LinkdAPI :=
  let this := {| apiKey := key; baseUrl := "https://api.linkd.network"; timeout := 30000 |} in
  (if negb (truthy (VStr key))
   then console Warn [Lit "LinkdAPI initialized without an API key. API calls will likely fail."]
   else ret tt) ;;
  ret this.

(* ================================================================== *)
(** ** The HTTP environment *)

Inductive method := GET | POST.

Record request := {
  req_method : method;
  url : string;
  body : value;
  params : list (string * value);
  headers : list (string * string);
  req_timeout : Z
}.

(** What one [axios] call settles to: a rejection, or [response.data]. *)
Definition network : Type := request -> exn + value.

Definition auth_headers (this : LinkdAPI) : list (string * string) :=
  [("Authorization", "Bearer " ++ apiKey this); ("Content-Type", "application/json")].

Definition axios {S} (net : network) (r : request) : M S value := lift (net r).

(* ================================================================== *)
(** ** Synchronous operations *)

Definition authentication_failed : log_entry :=
  (Error, [Lit "Linkd API authentication failed. Check your API key."]).

Definition handleApiError {S} `{Console S} (methodName : string) (error : exn) : M S unit :=
  match error with
  | IsAxiosError axiosError =>
      let resp_data := opt data (response axiosError) in
      let resp_status := opt (fun r => num_of_Z (status r)) (response axiosError) in
      text <- interpolate (js_or (get_opt resp_data "message") (VStr (message axiosError))) ;;
      console Error
        [Lit "Linkd API error in "; Lit methodName; Lit ": "; text;
         Lit " (Status: "; Interp (js_or resp_status (VStr "unknown")); Lit ")"] ;;
      if is_int resp_status 401
      then console Error (snd authentication_failed)
      else ret tt
  | _ =>
      console Error [Lit "Unexpected error in "; Lit methodName; Lit ":"; Caught error]
  end.

Definition search_params (options : LinkdSearchOptions) : list (string * value) :=
  assign "sort_order" (opt of_order (sortOrder options))
    (assign "sort_by" (opt VStr (sortBy options))
      (assign "include_details" (js_or (opt VBool (includeDetails options)) (VBool true))
        (assign "limit" (js_or (opt VNum (maxResults options)) (VNum 10))
          (spread_fields (match filters options with Some f => f | None => [] end)
            (assign "query" (VStr (query options)) []))))).

Definition search_request (this : LinkdAPI) (options : LinkdSearchOptions) : request :=
  {| req_method := GET;
     url := baseUrl this ++ "/api/search";
     body := VUndefined;
     params := search_params options;
     headers := auth_headers this;
     req_timeout := timeout this |}.

Definition empty_result : LinkdSearchResult :=
  {| profiles := VArr []; totalCount := VNum 0; queryExecutionTime := VNum 0 |}.

Definition searchProfiles {S} `{Console S} (net : network) (this : LinkdAPI)
    (options : LinkdSearchOptions) : M S LinkdSearchResult :=
  try_catch
    (console Log [Lit "Searching for profiles with query: "; Interp (VStr (query options))] ;;
     response_data <- axios net (search_request this options) ;;
     results <- get response_data "results" ;;
     total_count <- get response_data "total_count" ;;
     total <- or_else total_count
                (results' <- get response_data "results" ;; get results' "length") ;;
     execution_time <- get response_data "execution_time" ;;
     let result := {| profiles := js_or results (VArr []);
                      totalCount := total;
                      queryExecutionTime := js_or execution_time (VNum 0) |} in
     found <- get (profiles result) "length" ;;
     found_text <- interpolate found ;;
     total_text <- interpolate (totalCount result) ;;
     console Log [Lit "Found "; found_text; Lit " profiles (total: "; total_text; Lit ")"] ;;
     ret result)
    (fun error =>
       handleApiError "searchProfiles" error ;;
       ret empty_result).

Definition mutual_request (this : LinkdAPI) (profileId1 profileId2 : string) : request :=
  {| req_method := GET;
     url := baseUrl this ++ "/api/connections/mutual";
     body := VUndefined;
     params := [("profile1", VStr profileId1); ("profile2", VStr profileId2)];
     headers := auth_headers this;
     req_timeout := timeout this |}.

Definition findMutualConnections {S} `{Console S} (net : network) (this : LinkdAPI)
    (profileId1 profileId2 : string) : M S value :=
  try_catch
    (console Log [Lit "Finding mutual connections between "; Interp (VStr profileId1);
                  Lit " and "; Interp (VStr profileId2)] ;;
     response_data <- axios net (mutual_request this profileId1 profileId2) ;;
     found <- get response_data "connections" ;;
     let connections := js_or found (VArr []) in
     n <- get connections "length" ;;
     n_text <- interpolate n ;;
     console Log [Lit "Found "; n_text; Lit " mutual connections"] ;;
     ret connections)
    (fun error =>
       handleApiError "findMutualConnections" error ;;
       ret (VArr [])).

Definition profile_request (this : LinkdAPI) (profileId : string) : request :=
  {| req_method := GET;
     url := baseUrl this ++ "/api/profile/" ++ profileId;
     body := VUndefined;
     params := [];
     headers := auth_headers this;
     req_timeout := timeout this |}.

Definition getProfileDetails {S} `{Console S} (net : network) (this : LinkdAPI)
    (profileId : string) : M S value :=
  try_catch
    (console Log [Lit "Getting details for profile: "; Interp (VStr profileId)] ;;
     response_data <- axios net (profile_request this profileId) ;;
     console Log [Lit "Successfully retrieved details for profile: "; Interp (VStr profileId)] ;;
     profile <- get response_data "profile" ;;
     ret (js_or profile VNull))
    (fun error =>
       handleApiError "getProfileDetails" error ;;
       ret VNull).

Definition intro_request (this : LinkdAPI) (req : LinkdIntroRequest) : request :=
  {| req_method := POST;
     url := baseUrl this ++ "/api/introductions/request";
     body := of_request req;
     params := [];
     headers := auth_headers this;
     req_timeout := timeout this |}.

Definition requestIntroduction {S} `{Console S} (net : network) (this : LinkdAPI)
    (req : LinkdIntroRequest) : M S value :=
  try_catch
    (console Log [Lit "Requesting introduction from "; Interp (VStr (fromId req));
                  Lit " to "; Interp (VStr (toId req))] ;;
     response_data <- axios net (intro_request this req) ;;
     console Log [Lit "Introduction request sent successfully"] ;;
     success <- get response_data "success" ;;
     ret (js_or success (VBool false)))
    (fun error =>
       handleApiError "requestIntroduction" error ;;
       ret (VBool false)).

(* ================================================================== *)
(** ** Streamed search: the closure of [searchProfilesWebSocket] *)

(** [timeoutId]: the deadline timer is pending, was cleared, or ran. *)
Inductive timer := Armed (delay : Z) | Cleared | Fired.

(** The [ws] object as the client uses it: frames handed to [send] and
    the number of [close()] calls made on it. *)
Record WebSocket := {
  ws_url : string;
  sent : list value;
  closed : nat
}.

Inductive reason : Type :=
| NewError (msg : value)     (* reject(new Error(msg)) *)
| Passed (error : exn).      (* reject(error) *)

(** The returned promise.  A resolution holds [totalCount] and
    [queryExecutionTime] by value and [profiles] by reference: the result
    object shares the array the handlers push to. *)
Inductive promise : Type :=
| Pending
| Resolved (total time : value)
| Rejected (r : reason).

Record closure := {
  acc_profiles : list value;       (* const profiles *)
  acc_totalCount : value;          (* let totalCount *)
  startTime : Z;
  timeoutId : timer;
  ws : WebSocket;
  settled : promise;
  stdout : list log_entry
}.

Definition with_profiles (c : closure) (ps : list value) : closure :=
  {| acc_profiles := ps; acc_totalCount := acc_totalCount c; startTime := startTime c;
     timeoutId := timeoutId c; ws := ws c; settled := settled c; stdout := stdout c |}.

Definition with_totalCount (c : closure) (t : value) : closure :=
  {| acc_profiles := acc_profiles c; acc_totalCount := t; startTime := startTime c;
     timeoutId := timeoutId c; ws := ws c; settled := settled c; stdout := stdout c |}.

Definition with_timer (c : closure) (t : timer) : closure :=
  {| acc_profiles := acc_profiles c; acc_totalCount := acc_totalCount c;
     startTime := startTime c; timeoutId := t; ws := ws c; settled := settled c;
     stdout := stdout c |}.

Definition with_ws (c : closure) (w : WebSocket) : closure :=
  {| acc_profiles := acc_profiles c; acc_totalCount := acc_totalCount c;
     startTime := startTime c; timeoutId := timeoutId c; ws := w; settled := settled c;
     stdout := stdout c |}.

Definition with_settled (c : closure) (p : promise) : closure :=
  {| acc_profiles := acc_profiles c; acc_totalCount := acc_totalCount c;
     startTime := startTime c; timeoutId := timeoutId c; ws := ws c; settled := p;
     stdout := stdout c |}.

Definition with_stdout (c : closure) (l : list log_entry) : closure :=
  {| acc_profiles := acc_profiles c; acc_totalCount := acc_totalCount c;
     startTime := startTime c; timeoutId := timeoutId c; ws := ws c; settled := settled c;
     stdout := l |}.

#[export] Instance Console_closure : Console closure :=
  { emit := fun e c => with_stdout c (stdout c ++ [e])%list }.

(** What a caller holding the resolved result reads from it now. *)
Definition resolved_with (c : closure) : option LinkdSearchResult :=
  match settled c with
  | Resolved total time =>
      Some {| profiles := VArr (acc_profiles c); totalCount := total;
              queryExecutionTime := time |}
  | _ => None
  end.

Definition clearTimeout : M closure unit :=
  modify (fun c => match timeoutId c with
                   | Armed _ => with_timer c Cleared
                   | _ => c
                   end).

Definition ws_close : M closure unit :=
  modify (fun c => with_ws c {| ws_url := ws_url (ws c); sent := sent (ws c);
                                closed := S (closed (ws c)) |}).

Definition ws_send (frame : value) : M closure unit :=
  modify (fun c => with_ws c {| ws_url := ws_url (ws c);
                                sent := (sent (ws c) ++ [frame])%list;
                                closed := closed (ws c) |}).

(** Settling a promise that is already settled does nothing. *)
Definition settle (p : promise) : M closure unit :=
  modify (fun c => match settled c with
                   | Pending => with_settled c p
                   | _ => c
                   end).

Definition resolve (total time : value) : M closure unit := settle (Resolved total time).
Definition reject (r : reason) : M closure unit := settle (Rejected r).

(** The JavaScript engine as far as the client depends on it: how many
    arguments one call may spread.  The bound differs between engines and
    stack sizes; none is below a thousand. *)
Record Engine := {
  max_arguments : Z;
  max_arguments_ample : (1024 <= max_arguments)%Z
}.

(** [profiles.push(...items)]: the call is made only when the engine
    accepts that many arguments. *)
Definition push (engine : Engine) (items : list value) : M closure unit :=
  if Z.leb (Z.of_nat (List.length items)) (max_arguments engine)
  then modify (fun c => with_profiles c (acc_profiles c ++ items)%list)
  else throw RangeError.

(** [new Error(msg)] as the reason of a rejection: [msg] is converted to
    text unless it is [undefined]. *)
Definition new_Error (msg : value) : M closure reason :=
  if converts msg then ret (NewError msg) else throw TypeError.

Definition profiles_length : M closure value :=
  gets (fun c => num_of_nat (List.length (acc_profiles c))).

(** [(Date.now() - startTime) / 1000]. *)
Definition elapsed (now : Z) : M closure value :=
  gets (fun c => VNum (Qmake (now - startTime c) 1000)).

Definition JSON_parse {S} (frame : option value) : M S value :=
  match frame with
  | Some v => ret v
  | None => throw SyntaxError
  end.

(** [s.replace(pat, rep)] with a string pattern: the first occurrence. *)
Fixpoint replace (pat rep s : string) : string :=
  if String.prefix pat s
  then rep ++ String.substring (String.length pat) (String.length s - String.length pat) s
  else match s with
       | EmptyString => EmptyString
       | String ch rest => String ch (replace pat rep rest)
       end.

Definition query_message (this : LinkdAPI) (options : LinkdSearchOptions) : value :=
  VObj [("type", VStr "query");
        ("data", VObj [("query", VStr (query options));
                       ("filters", js_or (opt VObj (filters options)) (VObj []));
                       ("limit", js_or (opt VNum (maxResults options)) (VNum 10));
                       ("include_details",
                        js_or (opt VBool (includeDetails options)) (VBool true));
                       ("sort_by", opt VStr (sortBy options));
                       ("sort_order", opt of_order (sortOrder options))]);
        ("apiKey", VStr (apiKey this))].

Section Handlers.
Variable engine : Engine.
Variable this : LinkdAPI.
Variable options : LinkdSearchOptions.

(** The [setTimeout] callback. *)
Definition on_timeout (now : Z) : M closure unit :=
  console Error [Lit "WebSocket search timed out after 30 seconds"] ;;
  ws_close ;;
  n <- profiles_length ;;
  t <- elapsed now ;;
  resolve n t.

Definition on_open : M closure unit :=
  console Log [Lit "WebSocket connection established"] ;;
  ws_send (query_message this options).

(** The [try] block of the message handler. *)
Definition message_body (frame : option value) (now : Z) : M closure unit :=
  message <- JSON_parse frame ;;
  ty <- get message "type" ;;
  ty_text <- interpolate ty ;;
  console Log [Lit "Received WebSocket message of type: "; ty_text] ;;
  ty <- get message "type" ;;
  if is_str ty "result" then
    d <- get message "data" ;;
    results <- get d "results" ;;
    items <- lift (iterate results) ;;
    push engine items ;;
    d <- get message "data" ;;
    total_count <- get d "total_count" ;;
    n <- profiles_length ;;
    modify (fun c => with_totalCount c (js_or total_count n))
  else
    ty <- get message "type" ;;
    if is_str ty "complete" then
      clearTimeout ;;
      ws_close ;;
      executionTime <- elapsed now ;;
      n <- profiles_length ;;
      console Log [Lit "WebSocket search completed in "; Interp executionTime;
                   Lit "s with "; Interp n; Lit " results"] ;;
      total <- gets acc_totalCount ;;
      resolve total executionTime
    else
      ty <- get message "type" ;;
      if is_str ty "error" then
        clearTimeout ;;
        ws_close ;;
        d <- get message "data" ;;
        text <- get d "message" ;;
        console Error [Lit "WebSocket search error:"; Inspected text] ;;
        d <- get message "data" ;;
        text <- get d "message" ;;
        error <- new_Error text ;;
        reject error
      else ret tt.

Definition on_message (frame : option value) (now : Z) : M closure unit :=
  try_catch (message_body frame now)
    (fun error => console Error [Lit "Error parsing WebSocket message:"; Caught error]).

Definition on_error (error : exn) : M closure unit :=
  clearTimeout ;;
  console Error [Lit "WebSocket connection error:"; Caught error] ;;
  reject (Passed error).

Definition on_close : M closure unit :=
  clearTimeout ;;
  console Log [Lit "WebSocket connection closed"].

(** The promise executor: everything that runs before the first event. *)
Definition searchProfilesWebSocket (now : Z) : closure :=
  let wsUrl := replace "https://" "wss://" (baseUrl this) ++ "/api/search/ws" in
  {| acc_profiles := [];
     acc_totalCount := VNum 0;
     startTime := now;
     timeoutId := Armed (timeout this);
     ws := {| ws_url := wsUrl; sent := []; closed := 0 |};
     settled := Pending;
     stdout := [(Log, [Lit "Starting WebSocket search with query: ";
                       Interp (VStr (query options))]);
                (Log, [Lit "Connecting to WebSocket at: "; Interp (VStr wsUrl)])] |}.

(** What the event loop can deliver to the closure. *)
Inductive event : Type :=
| Open
| Message (frame : option value) (now : Z)
| Failure (error : exn)
| Close
| Deadline (now : Z).

Definition dispatch (ev : event) : M closure unit :=
  match ev with
  | Open => on_open
  | Message frame now => on_message frame now
  | Failure error => on_error error
  | Close => on_close
  | Deadline now =>
      fun c => match timeoutId c with
               | Armed _ => on_timeout now (with_timer c Fired)
               | _ => (inr tt, c)
               end
  end.

Definition step (c : closure) (ev : event) : closure := snd (dispatch ev c).

Definition run (now : Z) (evs : list event) : closure :=
  fold_left step evs (searchProfilesWebSocket now).
End Handlers.

(* ================================================================== *)
(** ** What the properties speak about *)

(** [maxResults] as the caller asked for it, 10 when it is not given. *)
Definition requested (options : LinkdSearchOptions) : Q :=
  match maxResults options with
  | Some q => q
  | None => 10
  end.

(** The [limit] the client sends: [options.maxResults || 10]. *)
Definition limit (options : LinkdSearchOptions) : Q :=
  match maxResults options with
  | Some q => if Qeq_bool q 0 then 10 else q
  | None => 10
  end.

Definition valid_query (options : LinkdSearchOptions) : Prop :=
  match maxResults options with
  | Some q => (0 <= q)%Q
  | None => True
  end.

Definition size (ps : list value) : Q := inject_Z (Z.of_nat (List.length ps)).

(** [profiles.length <= bound] and [totalCount >= profiles.length]. *)
Definition within_bounds (bound : Q) (r : LinkdSearchResult) : Prop :=
  exists ps total,
    profiles r = VArr ps /\ totalCount r = VNum total /\
    (size ps <= bound)%Q /\ (size ps <= total)%Q.

(** [new Error(msg).message] for the arguments whose conversion to text
    needs no number or object formatting. *)
Definition Error_message (r : reason) : option string :=
  match r with
  | NewError (VStr s) => Some s
  | NewError VUndefined => Some ""
  | _ => None
  end.

(** Events that name a terminal path: a [complete] or [error] message, a
    transport error, the deadline. *)
Definition terminal (ev : event) : bool :=
  match ev with
  | Message (Some m) _ =>
      is_str (get_opt m "type") "complete" || is_str (get_opt m "type") "error"
  | Failure _ | Deadline _ => true
  | _ => false
  end.

Definition is_failure (ev : event) : bool :=
  match ev with
  | Failure _ => true
  | _ => false
  end.

Definition parse_error_line (e : exn) : log_entry :=
  (Error, [Lit "Error parsing WebSocket message:"; Caught e]).

(** Sample data for the concrete runs below. *)
Definition node : Engine :=
  {| max_arguments := 100000;
     max_arguments_ample := proj1 (Z.leb_le 1024 100000) eq_refl |}.

Definition sample_api : LinkdAPI :=
  {| apiKey := "key"; baseUrl := "https://api.linkd.network"; timeout := 30000 |}.

Definition sample_options : LinkdSearchOptions :=
  {| query := "ucla alumni"; filters := None; maxResults := Some 2%Q;
     includeDetails := Some false; sortBy := None; sortOrder := None |}.

Definition sample_profile (n : Z) : value :=
  VObj [("id", VStr "p"); ("rank", num_of_Z n)].

Definition result_frame (ps : list value) (total : value) : value :=
  VObj [("type", VStr "result");
        ("data", VObj [("results", VArr ps); ("total_count", total)])].

Definition complete_frame : value := VObj [("type", VStr "complete")].

Definition error_frame (text : string) : value :=
  VObj [("type", VStr "error"); ("data", VObj [("message", VStr text)])].

Definition unauthorized : exn :=
  IsAxiosError {| message := "Request failed with status code 401";
                  response := Some {| status := 401;
                                      data := VObj [("message", VStr "invalid key")] |} |}.

(** Whether [handleApiError] can print [error]: for an axios error the
    message it interpolates, [response.data.message] or else the error's
    own message, must convert to text. *)
Definition reportable (error : exn) : bool :=
  match error with
  | IsAxiosError ax =>
      converts (js_or (get_opt (opt data (response ax)) "message") (VStr (message ax)))
  | _ => true
  end.

(** An object that does not convert to text. *)
Definition unprintable : value := VObj [("toString", VNum 1)].

(** A 401 rejection whose body carries such an object as its message. *)
Definition unprintable_401 : exn :=
  IsAxiosError {| message := "Request failed with status code 401";
                  response := Some {| status := 401;
                                      data := VObj [("message", unprintable)] |} |}.

Definition unprintable_network : network := fun _ => inl unprintable_401.

(** Every batch is small enough to be spread into one call. *)
Definition fits (engine : Engine) (batches : list (list value * value)) : Prop :=
  Forall (fun batch => (Z.of_nat (List.length (fst batch)) <= max_arguments engine)%Z) batches.

(** [error.response?.status === 401] for a caught [error]. *)
Definition is_401 (error : exn) : bool :=
  match error with
  | IsAxiosError ax =>
      match response ax with
      | Some r => Z.eqb (status r) 401
      | None => false
      end
  | _ => false
  end.

(** A server that answers a search capped at 2 with three profiles and a
    count of one. *)
Definition overfull_network : network :=
  fun _ => inr (VObj [("results", VArr [sample_profile 1; sample_profile 2; sample_profile 3]);
                      ("total_count", VNum 1)]).

(** A server that keeps to the limit. *)
Definition capped_network : network :=
  fun _ => inr (VObj [("results", VArr [sample_profile 1; sample_profile 2]);
                      ("total_count", VNum 5)]).

Definition unauthorized_network : network := fun _ => inl unauthorized.

Definition sample_request : LinkdIntroRequest :=
  {| fromId := "a"; toId := "b"; intro_message := "hello"; context := "class of 2018" |}.

(** An [error] frame that carries no [data]. *)
Definition bare_error_frame : value := VObj [("type", VStr "error")].

Definition econnrefused : exn := Thrown (VStr "connect ECONNREFUSED").

Definition three_profiles : list value :=
  [sample_profile 1; sample_profile 2; sample_profile 3].

(** "Closed exactly once": whenever the promise is settled, [close] has
    been called once on the channel. *)
Definition closed_exactly_once (c : closure) : Prop :=
  settled c <> Pending -> closed (ws c) = 1.

(** The frame carries [include_details: true]. *)
Definition details_included (frame : value) : Prop :=
  get_opt (get_opt frame "data") "include_details" = VBool true.

(* ================================================================== *)
(** ** [findProfileMatches] *)

Definition matches_params (options : LinkdSearchOptions) : list (string * value) :=
  assign "include_details" (js_or (opt VBool (includeDetails options)) (VBool true))
    (assign "limit" (js_or (opt VNum (maxResults options)) (VNum 10))
      (spread_fields (match filters options with Some f => f | None => [] end)
        (assign "query" (VStr (query options)) []))).

Definition matches_request (this : LinkdAPI) (profileId : string)
    (options : LinkdSearchOptions) : request :=
  {| req_method := GET;
     url := baseUrl this ++ "/api/profiles/matches/" ++ profileId;
     body := VUndefined;
     params := matches_params options;
     headers := auth_headers this;
     req_timeout := timeout this |}.

Definition findProfileMatches {S} `{Console S} (net : network) (this : LinkdAPI)
    (profileId : string) (options : LinkdSearchOptions) : M S LinkdSearchResult :=
  try_catch
    (console Log [Lit "Finding profile matches for "; Interp (VStr profileId);
                  Lit " with query: "; Interp (VStr (query options))] ;;
     response_data <- axios net (matches_request this profileId options) ;;
     matches <- get response_data "matches" ;;
     total_count <- get response_data "total_count" ;;
     total <- or_else total_count
                (matches' <- get response_data "matches" ;; get matches' "length") ;;
     execution_time <- get response_data "execution_time" ;;
     let result := {| profiles := js_or matches (VArr []);
                      totalCount := total;
                      queryExecutionTime := js_or execution_time (VNum 0) |} in
     found <- get (profiles result) "length" ;;
     found_text <- interpolate found ;;
     console Log [Lit "Found "; found_text; Lit " profile matches for ";
                  Interp (VStr profileId)] ;;
     ret result)
    (fun error =>
       handleApiError "findProfileMatches" error ;;
       ret empty_result).

(** The console line of [handleApiError] for an error that is not an
    axios error. *)
Definition unexpected_error (methodName : string) (error : exn) : log_entry :=
  (Error, [Lit "Unexpected error in "; Lit methodName; Lit ":"; Caught error]).

(** The parameter names the client writes after spreading the filters. *)
Definition own_params : list string := ["limit"; "include_details"; "sort_by"; "sort_order"].

(* ================================================================== *)
(** ** The icebreaker tool's helpers (the service's [index.ts]) *)

(** Text in the range the string operations below are modelled for: bytes
    below 128.  On such text [toLowerCase] and [trim] are what JavaScript
    computes; outside it JavaScript also folds and strips characters of
    other scripts, which the byte-wise definitions leave alone. *)
Definition ascii_text (s : string) : bool :=
  forallb (fun c => Nat.ltb (Ascii.nat_of_ascii c) 128) (list_ascii_of_string s).

Definition ascii_value (v : value) : bool :=
  match v with
  | VStr s => ascii_text s
  | _ => true
  end.

(** [c.toLowerCase()] on a character below 128. *)
Definition lower_char (c : Ascii.ascii) : Ascii.ascii :=
  let n := Ascii.nat_of_ascii c in
  if Nat.leb 65 n && Nat.leb n 90 then Ascii.ascii_of_nat (n + 32) else c.

Fixpoint toLowerCase (s : string) : string :=
  match s with
  | EmptyString => EmptyString
  | String c rest => String (lower_char c) (toLowerCase rest)
  end.

(** [s.includes(sub)]. *)
Fixpoint includes (s sub : string) : bool :=
  match s with
  | EmptyString => String.prefix sub EmptyString
  | String _ rest => String.prefix sub s || includes rest sub
  end.

(** [interests.some(i => interest.toLowerCase().includes(i.toLowerCase()))]:
    the callback runs only when there is a requested interest, and then
    [interest] must be a string. *)
Definition some_included (interest : value) (interests : list string) : exn + bool :=
  match interests with
  | [] => inr false
  | _ :: _ =>
      match interest with
      | VStr s =>
          inr (existsb (fun i => includes (toLowerCase s) (toLowerCase i)) interests)
      | _ => inl TypeError
      end
  end.

(** [xs.filter(...)] with a callback that may throw. *)
Fixpoint filter_shared (xs : list value) (interests : list string) : exn + list value :=
  match xs with
  | [] => inr []
  | x :: rest =>
      match some_included x interests with
      | inl e => inl e
      | inr keep =>
          match filter_shared rest interests with
          | inl e => inl e
          | inr kept => inr (if keep then x :: kept else kept)
          end
      end
  end.

Definition findSharedInterests (profile : value) (interests : list string)
  : exn + list value :=
  match get_prop profile "interests" with
  | inl e => inl e
  | inr found =>
      match js_or found (VArr []) with
      | VArr profileInterests =>
          match filter_shared profileInterests interests with
          | inl e => inl e
          | inr kept => inr (firstn 3 kept)
          end
      | _ => inl TypeError          (* [filter] is not a function *)
      end
  end.

(** [s.split(',')]. *)
Fixpoint split_comma (s : string) : list string :=
  match s with
  | EmptyString => [EmptyString]
  | String c rest =>
      if Ascii.eqb c (Ascii.ascii_of_nat 44) then EmptyString :: split_comma rest
      else match split_comma rest with
           | first :: others => String c first :: others
           | [] => [String c EmptyString]
           end
  end.

Definition is_space (c : Ascii.ascii) : bool :=
  let n := Ascii.nat_of_ascii c in
  (Nat.leb 9 n && Nat.leb n 13) || Nat.eqb n 32.

Fixpoint trimStart (cs : list Ascii.ascii) : list Ascii.ascii :=
  match cs with
  | [] => []
  | c :: rest => if is_space c then trimStart rest else cs
  end.

(** [s.trim()] on text below 128: strips tab, line feed, vertical tab, form
    feed, carriage return and space from both ends. *)
Definition trim (s : string) : string :=
  string_of_list_ascii (rev (trimStart (rev (trimStart (list_ascii_of_string s))))).

(** [interests.split(',').map(i => i.trim())]. *)
Definition interestsList (interests : string) : list string :=
  map trim (split_comma interests).

(* ================================================================== *)
(** ** Vocabulary for the streamed search *)

(** One [result] frame per batch, each carrying its profiles and the
    server's running total. *)
Definition result_messages (batches : list (list value * value)) (t : Z) : list event :=
  map (fun batch => Message (Some (result_frame (fst batch) (snd batch))) t) batches.

Definition is_open (ev : event) : bool :=
  match ev with
  | Open => true
  | _ => false
  end.

(** Events after which only the timer could still settle the promise. *)
Definition idle (ev : event) : bool :=
  match ev with
  | Open | Close | Deadline _ => true
  | _ => false
  end.

Definition is_string (v : value) : bool :=
  match v with
  | VStr _ => true
  | _ => false
  end.

(** A query whose filters reuse the names [query] and [limit]. *)
Definition filtered_options : LinkdSearchOptions :=
  {| query := "ucla alumni";
     filters := Some [("query", VStr "anyone"); ("limit", VNum 1000); ("school", VStr "UCLA")];
     maxResults := Some 2%Q; includeDetails := None; sortBy := None; sortOrder := None |}.

Definition missing_key_warning : log_entry :=
  (Warn, [Lit "LinkdAPI initialized without an API key. API calls will likely fail."]).

(** [shared] names a profile interest that contains, without regard to
    letter case, one of the requested interests. *)
Definition shares (all : list value) (interests : list string) (shared : value) : Prop :=
  In shared all /\
  exists s i, shared = VStr s /\ In i interests /\
              includes (toLowerCase s) (toLowerCase i) = true.

Definition sample_interests : list value :=
  [VStr "Machine Learning"; VStr "Basketball"; VStr "AI Ethics"; VStr "Reading";
   VStr "Deep learning"].

Definition sample_bruin : value :=
  VObj [("id", VStr "10"); ("name", VStr "Alex Thompson"); ("interests", VArr sample_interests)].

(* ================================================================== *)
(** ** Synchronous operations: proofs *)

Ltac run_program :=
  unfold interpolate;
  unfold try_catch, bind, axios, get, lift, console, modify, or_else, ret, gets, throw.

Lemma get_prop_throws (v : value) (k : string) (e : exn) :
  get_prop v k = inl e -> e = TypeError.
Proof.
  destruct v; simpl; intros Hv; try discriminate; injection Hv as <-; reflexivity.
Qed.

Lemma is_int_status (z : Z) : is_int (num_of_Z z) 401 = Z.eqb z 401.
Proof.
  unfold is_int, num_of_Z, Qeq_bool. simpl. rewrite Z.mul_1_r. reflexivity.
Qed.

(** [handleApiError] returns when it can print the error ... *)
Lemma handleApiError_returns {S} `{Console S} (methodName : string) (error : exn) (s : S) :
  reportable error = true ->
  exists s', handleApiError methodName error s = (inr tt, s').
Proof.
  destruct error as [ | | ax | v | ]; simpl; intros Hprint; run_program;
    try (eexists; reflexivity).
  rewrite Hprint. destruct (is_int _ 401); eexists; reflexivity.
Qed.

(** ... and throws, before it has logged anything, when it cannot. *)
Lemma handleApiError_throws {S} `{Console S} (methodName : string) (error : exn) (s : S) :
  reportable error = false ->
  handleApiError methodName error s = (inl TypeError, s).
Proof.
  destruct error as [ | | ax | v | ]; simpl; intros Hprint; try discriminate.
  run_program. rewrite Hprint. reflexivity.
Qed.

Lemma lookup_assign (k k' : string) (v : value) (fields : list (string * value)) :
  lookup k (assign k' v fields) = if String.eqb k k' then Some v else lookup k fields.
Proof.
  induction fields as [ | [k0 v0] rest IH]; simpl.
  - reflexivity.
  - destruct (String.eqb k' k0) eqn:E0; simpl.
    + apply String.eqb_eq in E0. subst k0.
      destruct (String.eqb k k'); reflexivity.
    + rewrite IH. destruct (String.eqb k k0) eqn:E1; [ | reflexivity].
      apply String.eqb_eq in E1. subst k0.
      rewrite String.eqb_sym, E0. reflexivity.
Qed.

Lemma limit_sent (this : LinkdAPI) (options : LinkdSearchOptions) :
  lookup "limit" (params (search_request this options)) = Some (VNum (limit options)).
Proof.
  simpl. unfold search_params. rewrite !lookup_assign. simpl.
  unfold limit, js_or. destruct (maxResults options) as [q | ]; simpl.
  - destruct (Qeq_bool q 0); reflexivity.
  - reflexivity.
Qed.

Lemma limit_nonneg (options : LinkdSearchOptions) :
  valid_query options -> (0 <= limit options)%Q.
Proof.
  unfold valid_query, limit. destruct (maxResults options) as [q | ].
  - intros Hq. destruct (Qeq_bool q 0); [ | exact Hq]. discriminate.
  - intros _. discriminate.
Qed.

Lemma empty_within_bounds (bound : Q) :
  (0 <= bound)%Q -> within_bounds bound empty_result.
Proof.
  intros Hb. exists [], 0%Q. repeat split; try assumption. discriminate.
Qed.

Lemma truthy_num (q : Q) : truthy (VNum q) = false -> (q == 0)%Q.
Proof.
  simpl. intros Hq. apply Qeq_bool_eq. destruct (Qeq_bool q 0); [reflexivity | discriminate].
Qed.

Lemma truthy_readable (v : value) (k : string) :
  truthy v = true -> exists x, get_prop v k = inr x.
Proof.
  destruct v; simpl; intros Hv; try discriminate; eexists; reflexivity.
Qed.

Lemma js_or_readable (v d : value) (k : string) :
  (exists x, get_prop d k = inr x) -> exists x, get_prop (js_or v d) k = inr x.
Proof.
  intros Hd. unfold js_or. destruct (truthy v) eqn:Hv.
  - apply truthy_readable. exact Hv.
  - exact Hd.
Qed.

Lemma readable_any (v x : value) (k k' : string) :
  get_prop v k = inr x -> exists y, get_prop v k' = inr y.
Proof.
  destruct v; simpl; intros Hv; try discriminate; eexists; reflexivity.
Qed.

(** The [catch] block shared by the synchronous operations: it gives the
    default when the error can be printed, and lets the [TypeError] of
    [handleApiError] escape when it cannot. *)
Lemma caught_default {S A} `{Console S} (methodName : string) (default : A)
    (error : exn) (s : S) :
  (reportable error = true ->
   exists s', (handleApiError methodName error ;; ret default) s = (inr default, s')) /\
  (reportable error = false ->
   (handleApiError methodName error ;; ret default) s = (inl TypeError, s)).
Proof.
  split; intros Hprint; unfold bind.
  - destruct (handleApiError_returns methodName error s Hprint) as [s' Hs'].
    rewrite Hs'. exists s'. reflexivity.
  - rewrite (handleApiError_throws methodName error s Hprint). reflexivity.
Qed.

(** [handleApiError] on a console that is a list: one line for every
    error it can print, and the authentication line exactly for a 401. *)
Lemma handleApiError_lines (methodName : string) (error : exn) (log : list log_entry) :
  reportable error = true ->
  exists line,
    handleApiError methodName error log
    = (inr tt, (log ++ line :: (if is_401 error then [authentication_failed] else []))%list)
    /\ line <> authentication_failed.
Proof.
  destruct error as [ | | ax | v | ]; simpl; intros Hprint; run_program; simpl;
    try (eexists; split; [reflexivity | discriminate]).
  rewrite Hprint.
  destruct (response ax) as [r | ]; simpl.
  - change (Qeq_bool (inject_Z (status r)) (inject_Z 401))
      with (is_int (num_of_Z (status r)) 401).
    rewrite is_int_status. destruct (Z.eqb (status r) 401); simpl.
    + rewrite <- app_assoc. eexists; split; [reflexivity | discriminate].
    + eexists; split; [reflexivity | discriminate].
  - eexists; split; [reflexivity | discriminate].
Qed.

(** In a [catch] block whose error can be printed, go on with the state
    [handleApiError] leaves. *)
Ltac caught :=
  cbv beta iota;
  match goal with
  | |- context [handleApiError ?n ?x ?st] =>
      let s' := fresh "s'" in
      let Hs' := fresh "Hs'" in
      let Hprintable := fresh "Hprintable" in
      assert (Hprintable : reportable x = true) by (first [reflexivity | assumption]);
      destruct (handleApiError_returns n x st Hprintable) as [s' Hs'];
      run_program; rewrite Hs'
  end.

(** A property read that throws throws a [TypeError]. *)
Ltac read v k :=
  let e := fresh "e" in
  let x := fresh "x" in
  let Hread := fresh "Hread" in
  destruct (get_prop v k) as [e | x] eqn:Hread;
  [apply get_prop_throws in Hread; subst e | ].

Lemma findMutualConnections_returns {S} `{Console S} (net : network) (this : LinkdAPI)
    (profileId1 profileId2 : string) (s : S) :
  (forall d, net (mutual_request this profileId1 profileId2) = inr d ->
             exists v s', findMutualConnections net this profileId1 profileId2 s
                          = (inr v, s')) /\
  (forall e, net (mutual_request this profileId1 profileId2) = inl e ->
             reportable e = true ->
             exists s', findMutualConnections net this profileId1 profileId2 s
                        = (inr (VArr []), s')) /\
  (forall e, net (mutual_request this profileId1 profileId2) = inl e ->
             reportable e = false ->
             exists s', findMutualConnections net this profileId1 profileId2 s
                        = (inl TypeError, s')).
Proof.
  unfold findMutualConnections. run_program. split; [ | split].
  - intros d ->. read d "connections".
    + caught. do 2 eexists. reflexivity.
    + destruct (js_or_readable x (VArr []) "length") as [n Hn].
      { eexists; reflexivity. }
      rewrite Hn. destruct (converts n).
      * do 2 eexists. reflexivity.
      * caught. do 2 eexists. reflexivity.
  - intros e -> Hprint. caught. eexists. reflexivity.
  - intros e -> Hprint.
    match goal with
    | |- context [handleApiError ?n ?x ?st] =>
        rewrite (handleApiError_throws n x st Hprint)
    end.
    eexists. reflexivity.
Qed.

Lemma getProfileDetails_returns {S} `{Console S} (net : network) (this : LinkdAPI)
    (profileId : string) (s : S) :
  (forall d, net (profile_request this profileId) = inr d ->
             exists v s', getProfileDetails net this profileId s = (inr v, s')) /\
  (forall e, net (profile_request this profileId) = inl e ->
             reportable e = true ->
             exists s', getProfileDetails net this profileId s = (inr VNull, s')) /\
  (forall e, net (profile_request this profileId) = inl e ->
             reportable e = false ->
             exists s', getProfileDetails net this profileId s = (inl TypeError, s')).
Proof.
  unfold getProfileDetails. run_program. split; [ | split].
  - intros d ->. read d "profile".
    + caught. do 2 eexists. reflexivity.
    + do 2 eexists. reflexivity.
  - intros e -> Hprint. caught. eexists. reflexivity.
  - intros e -> Hprint.
    match goal with
    | |- context [handleApiError ?n ?x ?st] =>
        rewrite (handleApiError_throws n x st Hprint)
    end.
    eexists. reflexivity.
Qed.

Lemma requestIntroduction_returns {S} `{Console S} (net : network) (this : LinkdAPI)
    (req : LinkdIntroRequest) (s : S) :
  (forall d, net (intro_request this req) = inr d ->
             exists v s', requestIntroduction net this req s = (inr v, s')) /\
  (forall e, net (intro_request this req) = inl e ->
             reportable e = true ->
             exists s', requestIntroduction net this req s = (inr (VBool false), s')) /\
  (forall e, net (intro_request this req) = inl e ->
             reportable e = false ->
             exists s', requestIntroduction net this req s = (inl TypeError, s')).
Proof.
  unfold requestIntroduction. run_program. split; [ | split].
  - intros d ->. read d "success".
    + caught. do 2 eexists. reflexivity.
    + do 2 eexists. reflexivity.
  - intros e -> Hprint. caught. eexists. reflexivity.
  - intros e -> Hprint.
    match goal with
    | |- context [handleApiError ?n ?x ?st] =>
        rewrite (handleApiError_throws n x st Hprint)
    end.
    eexists. reflexivity.
Qed.

(** C1, as stated, fails: asked for at most 2 profiles, the client hands
    back the 3 the server sent, together with the server's count of 1. *)
Lemma searchProfiles_overfull :
  valid_query sample_options /\
  exists ps log,
    searchProfiles overfull_network sample_api sample_options []
    = (inr {| profiles := VArr ps; totalCount := VNum 1; queryExecutionTime := VNum 0 |}, log)
    /\ ~ (size ps <= requested sample_options)%Q
    /\ ~ (size ps <= 1)%Q.
Proof.
  split.
  - simpl. discriminate.
  - do 2 eexists. split; [reflexivity | ].
    split; intros Hle; apply Hle; reflexivity.
Qed.

(** C1, amended: the client hands back the server's [results] array as it
    is, without cutting it to the limit, and takes [totalCount] from the
    server's [total_count], or from the length of the array when that is
    missing or 0.  So, for a query whose cap is not negative and with the
    limit sent ([maxResults], or 10 when it is missing or 0): a response
    with a [results] array of at most limit entries and a [total_count]
    that is missing or a number not below the number of entries gives a
    result with exactly those entries, [profiles.length <= limit] and
    [totalCount >= profiles.length]; a failed call whose error
    [handleApiError] can print gives the empty result, which is within the
    bounds too. *)
Theorem searchProfiles_within_bounds {S} `{Console S} (net : network) (this : LinkdAPI)
    (options : LinkdSearchOptions) (s : S) :
  valid_query options ->
  (forall d rs total_count,
      net (search_request this options) = inr d ->
      get_prop d "results" = inr (VArr rs) ->
      get_prop d "total_count" = inr total_count ->
      (size rs <= limit options)%Q ->
      (total_count = VUndefined \/ exists q, total_count = VNum q /\ (size rs <= q)%Q) ->
      exists r s',
        searchProfiles net this options s = (inr r, s') /\
        profiles r = VArr rs /\
        totalCount r = (if truthy total_count then total_count
                        else num_of_nat (List.length rs)) /\
        within_bounds (limit options) r) /\
  (forall e,
      net (search_request this options) = inl e ->
      reportable e = true ->
      exists s',
        searchProfiles net this options s = (inr empty_result, s') /\
        within_bounds (limit options) empty_result).
Proof.
  intros Hvalid. unfold searchProfiles. run_program. split.
  - intros d rs total_count -> Hrs Htc Hcap Htotal.
    destruct (readable_any d (VArr rs) "results" "execution_time" Hrs) as [time Htime].
    rewrite Hrs, Htc, Htime.
    destruct Htotal as [-> | (q & -> & Hq_le)].
    + simpl. do 2 eexists. split; [reflexivity | ]. simpl.
      split; [reflexivity | ]. split; [reflexivity | ].
      exists rs, (size rs). repeat split; try assumption. apply Qle_refl.
    + destruct (truthy (VNum q)) eqn:Hzero.
      * simpl. do 2 eexists. split; [reflexivity | ]. simpl.
        split; [reflexivity | ]. split; [reflexivity | ].
        exists rs, q. repeat split; assumption.
      * simpl. do 2 eexists. split; [reflexivity | ]. simpl.
        split; [reflexivity | ]. split; [reflexivity | ].
        exists rs, (size rs). repeat split; try assumption. apply Qle_refl.
  - intros e -> Hprint. caught. eexists. split; [reflexivity | ].
    apply empty_within_bounds, limit_nonneg, Hvalid.
Qed.

Lemma searchProfiles_within_bounds_witness :
  (exists r s',
      searchProfiles capped_network sample_api sample_options ([] : list log_entry)
      = (inr r, s') /\
      profiles r = VArr [sample_profile 1; sample_profile 2] /\
      totalCount r = VNum 5 /\
      within_bounds (limit sample_options) r) /\
  (exists s',
      searchProfiles unauthorized_network sample_api sample_options ([] : list log_entry)
      = (inr empty_result, s') /\
      within_bounds (limit sample_options) empty_result).
Proof.
  assert (Hvalid : valid_query sample_options) by (simpl; discriminate).
  split.
  - apply (proj1 (searchProfiles_within_bounds capped_network sample_api sample_options
                    [] Hvalid)
             (VObj [("results", VArr [sample_profile 1; sample_profile 2]);
                    ("total_count", VNum 5)])
             [sample_profile 1; sample_profile 2] (VNum 5)).
    + reflexivity.
    + reflexivity.
    + reflexivity.
    + discriminate.
    + right. exists 5%Q. split; [reflexivity | discriminate].
  - apply (proj2 (searchProfiles_within_bounds unauthorized_network sample_api
                    sample_options [] Hvalid) unauthorized).
    + reflexivity.
    + reflexivity.
Defined.

(** C6, as stated, fails: a 401 rejection whose body carries a message
    that does not convert to text makes [handleApiError] throw inside the
    [catch] block, and [searchProfiles] rejects with that [TypeError]
    instead of returning the empty result. *)
Lemma searchProfiles_unauthorized_rejects :
  is_401 unprintable_401 = true /\
  searchProfiles unprintable_network sample_api sample_options []
  = (inl TypeError,
     [(Log, [Lit "Searching for profiles with query: "; Interp (VStr "ucla alumni")])]).
Proof. split; reflexivity. Qed.

(** C6, amended: when the HTTP call of a synchronous search fails with an
    error whose message converts to text (as it does when the body's
    [message] is missing or a string), [searchProfiles] returns the empty
    result instead of throwing, and the console receives the
    authentication line exactly when the failure is a 401 rejection. *)
Theorem searchProfiles_unauthorized (net : network) (this : LinkdAPI)
    (options : LinkdSearchOptions) (error : exn) (log : list log_entry) :
  net (search_request this options) = inl error ->
  reportable error = true ->
  exists emitted,
    searchProfiles net this options log = (inr empty_result, (log ++ emitted)%list) /\
    (is_401 error = true -> In authentication_failed emitted) /\
    (is_401 error = false -> ~ In authentication_failed emitted).
Proof.
  intros Hnet Hprint. unfold searchProfiles. run_program. rewrite Hnet.
  match goal with
  | |- context [handleApiError ?n ?x ?st] =>
      destruct (handleApiError_lines n x st Hprint) as (line & Hline & Hdistinct)
  end.
  run_program. rewrite Hline. simpl. rewrite <- app_assoc. simpl.
  eexists. split; [reflexivity | ].
  destruct (is_401 error); split; intros Hcase; try discriminate.
  - simpl. auto.
  - simpl. intros [Hin | [Hin | []]]; [discriminate | ].
    apply Hdistinct. exact Hin.
Qed.

Lemma searchProfiles_unauthorized_witness :
  exists emitted,
    searchProfiles unauthorized_network sample_api sample_options []
    = (inr empty_result, emitted) /\
    In authentication_failed emitted.
Proof.
  destruct (searchProfiles_unauthorized unauthorized_network sample_api sample_options
              unauthorized [] eq_refl eq_refl) as (emitted & Hrun & Hauth & _).
  exists emitted. split; [exact Hrun | ]. apply Hauth. reflexivity.
Defined.

(** C8, as stated, fails: when the failure is a rejection whose body
    carries a message that does not convert to text, [handleApiError]
    throws inside each [catch] block and the three operations reject. *)
Lemma subordinate_operations_reject :
  fst (findMutualConnections unprintable_network sample_api "a" "b" ([] : list log_entry))
  = inl TypeError /\
  fst (getProfileDetails unprintable_network sample_api "a" ([] : list log_entry))
  = inl TypeError /\
  fst (requestIntroduction unprintable_network sample_api sample_request
         ([] : list log_entry))
  = inl TypeError.
Proof. repeat split. Qed.

(** C8, amended: each of the three subordinate operations returns a value
    whenever its HTTP call succeeds, whatever the body; when the call fails
    with an error whose message converts to text it returns its safe
    default: the empty list for [findMutualConnections], [null] for
    [getProfileDetails], [false] for [requestIntroduction]; it rejects,
    with a [TypeError], only when the call fails with an error whose
    message does not convert. *)
Theorem subordinate_operations_fall_back {S} `{Console S} (net : network)
    (this : LinkdAPI) (s : S) :
  (forall id1 id2,
      (forall d, net (mutual_request this id1 id2) = inr d ->
                 exists v s', findMutualConnections net this id1 id2 s = (inr v, s')) /\
      (forall e, net (mutual_request this id1 id2) = inl e -> reportable e = true ->
                 exists s', findMutualConnections net this id1 id2 s
                            = (inr (VArr []), s')) /\
      (forall e, net (mutual_request this id1 id2) = inl e -> reportable e = false ->
                 exists s', findMutualConnections net this id1 id2 s
                            = (inl TypeError, s'))) /\
  (forall id,
      (forall d, net (profile_request this id) = inr d ->
                 exists v s', getProfileDetails net this id s = (inr v, s')) /\
      (forall e, net (profile_request this id) = inl e -> reportable e = true ->
                 exists s', getProfileDetails net this id s = (inr VNull, s')) /\
      (forall e, net (profile_request this id) = inl e -> reportable e = false ->
                 exists s', getProfileDetails net this id s = (inl TypeError, s'))) /\
  (forall req,
      (forall d, net (intro_request this req) = inr d ->
                 exists v s', requestIntroduction net this req s = (inr v, s')) /\
      (forall e, net (intro_request this req) = inl e -> reportable e = true ->
                 exists s', requestIntroduction net this req s = (inr (VBool false), s')) /\
      (forall e, net (intro_request this req) = inl e -> reportable e = false ->
                 exists s', requestIntroduction net this req s = (inl TypeError, s'))).
Proof.
  split; [ | split].
  - intros id1 id2. apply findMutualConnections_returns.
  - intros id. apply getProfileDetails_returns.
  - intros req. apply requestIntroduction_returns.
Qed.

Lemma subordinate_operations_fall_back_witness :
  fst (findMutualConnections unauthorized_network sample_api "a" "b" ([] : list log_entry))
  = inr (VArr []) /\
  fst (getProfileDetails unauthorized_network sample_api "a" ([] : list log_entry))
  = inr VNull /\
  fst (requestIntroduction unauthorized_network sample_api sample_request
         ([] : list log_entry))
  = inr (VBool false).
Proof.
  destruct (subordinate_operations_fall_back unauthorized_network sample_api
              ([] : list log_entry)) as (Hmutual & Hprofile & Hintro).
  destruct (Hmutual "a" "b") as (_ & Hfail1 & _).
  destruct (Hprofile "a") as (_ & Hfail2 & _).
  destruct (Hintro sample_request) as (_ & Hfail3 & _).
  destruct (Hfail1 unauthorized eq_refl eq_refl) as [s1 Hrun1].
  destruct (Hfail2 unauthorized eq_refl eq_refl) as [s2 Hrun2].
  destruct (Hfail3 unauthorized eq_refl eq_refl) as [s3 Hrun3].
  rewrite Hrun1, Hrun2, Hrun3. split; [ | split]; exact eq_refl.
Defined.
(* ================================================================== *)
(** ** Streamed search: proofs *)

Ltac run_handler :=
  unfold step, dispatch, on_message, message_body, on_open, on_error, on_close, on_timeout,
    JSON_parse, clearTimeout, ws_close, ws_send, resolve, reject, settle, push, new_Error,
    profiles_length, elapsed;
  run_program.

Ltac split_cases :=
  repeat match goal with
         | |- context [get_prop ?v ?k] => destruct (get_prop v k) eqn:?; simpl
         | |- context [is_str ?v ?k] => destruct (is_str v k) eqn:?; simpl
         | |- context [iterate ?v] => destruct (iterate v) eqn:?; simpl
         | |- context [converts ?v] => destruct (converts v) eqn:?; simpl
         | |- context [Z.leb ?a ?b] => destruct (Z.leb a b) eqn:?; simpl
         | |- context [timeoutId ?c] => is_var c; destruct (timeoutId c) eqn:?; simpl
         | |- context [settled ?c] => is_var c; destruct (settled c) eqn:?; simpl
         end.

Lemma run_app (engine : Engine) (this : LinkdAPI) (options : LinkdSearchOptions) (now : Z)
    (pre suf : list event) :
  run engine this options now (pre ++ suf)
  = fold_left (step engine this options) suf (run engine this options now pre).
Proof. unfold run. apply fold_left_app. Qed.

Lemma run_snoc (engine : Engine) (this : LinkdAPI) (options : LinkdSearchOptions) (now : Z)
    (pre : list event) (ev : event) :
  run engine this options now (pre ++ [ev])
  = step engine this options (run engine this options now pre) ev.
Proof. rewrite run_app. reflexivity. Qed.

(** An event that names no terminal path neither settles the promise nor
    closes the channel. *)
Lemma step_nonterminal (engine : Engine) (this : LinkdAPI) (options : LinkdSearchOptions)
    (c : closure) (ev : event) :
  terminal ev = false ->
  settled (step engine this options c ev) = settled c /\
  closed (ws (step engine this options c ev)) = closed (ws c).
Proof.
  destruct ev as [ | [m | ] t | e | | t]; simpl; intros Hev; try discriminate.
  - split; reflexivity.
  - apply orb_false_elim in Hev. destruct Hev as [Hcomplete Herror].
    unfold get_opt in Hcomplete, Herror.
    run_handler. simpl.
    destruct (get_prop m "type") as [e | ty]; simpl.
    + split; reflexivity.
    + rewrite Hcomplete, Herror. split_cases; split; reflexivity.
  - split; reflexivity.
  - run_handler. simpl. split_cases; split; reflexivity.
Qed.

Lemma nonterminal_run (engine : Engine) (this : LinkdAPI) (options : LinkdSearchOptions) (now : Z)
    (pre : list event) :
  Forall (fun ev => terminal ev = false) pre ->
  settled (run engine this options now pre) = Pending /\
  closed (ws (run engine this options now pre)) = 0.
Proof.
  induction pre as [ | ev pre IH] using rev_ind; intros Hpre.
  - split; reflexivity.
  - apply Forall_app in Hpre. destruct Hpre as [Hpre Hev].
    inversion Hev as [ | ev' rest Hterminal _]; subst.
    destruct (IH Hpre) as [Hsettled Hclosed].
    rewrite run_snoc.
    destruct (step_nonterminal engine this options (run engine this options now pre) ev Hterminal)
      as [Hs Hc].
    rewrite Hs, Hc. split; assumption.
Qed.

(** The step that settles the promise calls [close] once, unless it is the
    transport error handler, which does not call it. *)
Lemma step_settles (engine : Engine) (this : LinkdAPI) (options : LinkdSearchOptions)
    (c : closure) (ev : event) :
  settled c = Pending ->
  settled (step engine this options c ev) <> Pending ->
  closed (ws (step engine this options c ev))
  = closed (ws c) + (if is_failure ev then 0 else 1).
Proof.
  intros Hpending.
  destruct ev as [ | [m | ] t | e | | t]; run_handler; simpl;
    rewrite ?Hpending; simpl; split_cases; simpl;
    rewrite ?Hpending; simpl; intros Hsettled;
    try (exfalso; apply Hsettled; assumption); try congruence; lia.
Qed.

Lemma step_closed_monotone (engine : Engine) (this : LinkdAPI) (options : LinkdSearchOptions)
    (c : closure) (ev : event) :
  closed (ws c) <= closed (ws (step engine this options c ev)).
Proof.
  destruct ev as [ | [m | ] t | e | | t]; run_handler; simpl; split_cases; lia.
Qed.

Lemma closed_monotone (engine : Engine) (this : LinkdAPI) (options : LinkdSearchOptions)
    (evs : list event) (c : closure) :
  closed (ws c) <= closed (ws (fold_left (step engine this options) evs c)).
Proof.
  revert c. induction evs as [ | ev evs IH]; intros c; simpl.
  - lia.
  - specialize (IH (step engine this options c ev)).
    pose proof (step_closed_monotone engine this options c ev). lia.
Qed.

(** A settled promise stays as it is. *)
Lemma step_settled_stable (engine : Engine) (this : LinkdAPI) (options : LinkdSearchOptions)
    (c : closure) (ev : event) :
  settled c <> Pending -> settled (step engine this options c ev) = settled c.
Proof.
  intros Hsettled.
  destruct ev as [ | [m | ] t | e | | t]; run_handler; simpl; split_cases;
    try reflexivity; try congruence.
Qed.

(** The closure before anything but [open] notifications arrived. *)
Lemma only_open_run (engine : Engine) (this : LinkdAPI) (options : LinkdSearchOptions) (now : Z)
    (pre : list event) :
  Forall (fun ev => ev = Open) pre ->
  let c := run engine this options now pre in
  acc_profiles c = [] /\ acc_totalCount c = VNum 0 /\ startTime c = now /\
  timeoutId c = Armed (timeout this) /\ settled c = Pending /\ closed (ws c) = 0.
Proof.
  induction pre as [ | ev pre IH] using rev_ind; intros Hpre.
  - repeat split.
  - apply Forall_app in Hpre. destruct Hpre as [Hpre Hev].
    inversion Hev as [ | ev' rest Hopen _]; subst.
    specialize (IH Hpre). simpl in IH. simpl.
    rewrite run_snoc. exact IH.
Qed.

Lemma step_result (engine : Engine) (this : LinkdAPI) (options : LinkdSearchOptions) (c : closure)
    (m d results total_count : value) (items : list value) (now : Z) :
  get_prop m "type" = inr (VStr "result") ->
  get_prop m "data" = inr d ->
  get_prop d "results" = inr results ->
  iterate results = inr items ->
  (Z.of_nat (List.length items) <= max_arguments engine)%Z ->
  get_prop d "total_count" = inr total_count ->
  let c' := step engine this options c (Message (Some m) now) in
  acc_profiles c' = (acc_profiles c ++ items)%list /\
  acc_totalCount c'
  = js_or total_count (num_of_nat (List.length (acc_profiles c ++ items))) /\
  startTime c' = startTime c /\ timeoutId c' = timeoutId c /\
  settled c' = settled c /\ ws c' = ws c.
Proof.
  intros Htype Hdata Hresults Hitems Hfits Htotal. run_handler. simpl.
  apply Z.leb_le in Hfits.
  rewrite Htype. simpl. rewrite Hdata, Hresults, Hitems, Hfits, Htotal. simpl.
  repeat split.
Qed.

Lemma step_complete (engine : Engine) (this : LinkdAPI) (options : LinkdSearchOptions) (c : closure)
    (m : value) (now : Z) :
  get_prop m "type" = inr (VStr "complete") ->
  settled c = Pending ->
  let c' := step engine this options c (Message (Some m) now) in
  settled c' = Resolved (acc_totalCount c) (VNum (Qmake (now - startTime c) 1000)) /\
  acc_profiles c' = acc_profiles c /\
  closed (ws c') = S (closed (ws c)).
Proof.
  intros Htype Hpending. run_handler. simpl.
  rewrite Htype. simpl. destruct (timeoutId c); simpl; rewrite Hpending; repeat split.
Qed.

Lemma step_error (engine : Engine) (this : LinkdAPI) (options : LinkdSearchOptions) (c : closure)
    (m d text : value) (now : Z) :
  get_prop m "type" = inr (VStr "error") ->
  get_prop m "data" = inr d ->
  get_prop d "message" = inr text ->
  converts text = true ->
  settled c = Pending ->
  let c' := step engine this options c (Message (Some m) now) in
  settled c' = Rejected (NewError text) /\
  closed (ws c') = S (closed (ws c)).
Proof.
  intros Htype Hdata Htext Hconverts Hpending. run_handler. simpl.
  rewrite Htype. simpl. rewrite Hdata, Htext, Hconverts.
  destruct (timeoutId c); simpl; rewrite Hpending; repeat split.
Qed.

Lemma step_deadline (engine : Engine) (this : LinkdAPI) (options : LinkdSearchOptions) (c : closure)
    (delay now : Z) :
  timeoutId c = Armed delay ->
  settled c = Pending ->
  let c' := step engine this options c (Deadline now) in
  settled c'
  = Resolved (num_of_nat (List.length (acc_profiles c)))
             (VNum (Qmake (now - startTime c) 1000)) /\
  acc_profiles c' = acc_profiles c /\
  closed (ws c') = S (closed (ws c)).
Proof.
  intros Harmed Hpending. run_handler. simpl.
  rewrite Harmed. simpl. rewrite Hpending. repeat split.
Qed.

(** An unparseable frame only adds a console line. *)
Lemma step_unparseable (engine : Engine) (this : LinkdAPI)
    (options : LinkdSearchOptions) (c : closure)
    (now : Z) :
  step engine this options c (Message None now) = emit (parse_error_line SyntaxError) c.
Proof. reflexivity. Qed.

(** A frame is dropped when the [try] block of the handler throws on it:
    the [catch] block then logs the exception. *)
Lemma dropped_logged (engine : Engine) (this : LinkdAPI)
    (options : LinkdSearchOptions) (c : closure)
    (frame : option value) (now : Z) (e : exn) :
  fst (message_body engine frame now c) = inl e ->
  exists lines,
    stdout (step engine this options c (Message frame now))
    = (stdout c ++ lines ++ [parse_error_line e])%list.
Proof.
  unfold step, dispatch, on_message, try_catch.
  destruct (message_body engine frame now c) as [[e' | []] c'] eqn:Hbody; simpl;
    intros He; [ | discriminate].
  injection He as ->. revert Hbody. unfold message_body. run_handler. simpl.
  destruct frame as [m | ]; simpl.
  - destruct (get_prop m "type") as [e0 | ty]; simpl.
    + intros [= <- <-]. exists []. reflexivity.
    + split_cases; intros [= <- <-]; simpl; try discriminate;
        rewrite <- ?app_assoc;
        first [exists []; reflexivity
              | eexists (_ :: nil); reflexivity
              | eexists (_ :: _ :: nil); reflexivity].
  - intros [= <- <-]. exists []. reflexivity.
Qed.

(** A dropped frame changes neither the accumulated profiles nor the
    running total. *)
Lemma dropped_keeps_accumulated (engine : Engine) (this : LinkdAPI) (options : LinkdSearchOptions)
    (c : closure) (frame : option value) (now : Z) (e : exn) :
  fst (message_body engine frame now c) = inl e ->
  acc_profiles (step engine this options c (Message frame now)) = acc_profiles c /\
  acc_totalCount (step engine this options c (Message frame now)) = acc_totalCount c.
Proof.
  unfold message_body. run_handler. simpl.
  destruct frame as [m | ]; simpl; [ | intros _; split; reflexivity].
  destruct (get_prop m "type") as [e0 | ty]; simpl; [intros _; split; reflexivity | ].
  destruct (converts ty); simpl; [ | intros _; split; reflexivity].
  destruct (is_str ty "result") eqn:Hresult; simpl.
  - destruct (get_prop m "data") as [e1 | d]; simpl; [intros _; split; reflexivity | ].
    destruct (get_prop d "results") as [e2 | results] eqn:Hresults; simpl;
      [intros _; split; reflexivity | ].
    destruct (readable_any d results "results" "total_count" Hresults) as [total Htotal].
    rewrite Htotal.
    destruct (iterate results) as [e3 | items]; simpl; [intros _; split; reflexivity | ].
    destruct (Z.leb (Z.of_nat (List.length items)) (max_arguments engine)); simpl;
      [discriminate | intros _; split; reflexivity].
  - split_cases; intros Hthrown; try discriminate; split; reflexivity.
Qed.

(** Unless its type is [error], a dropped frame also leaves the timer, the
    channel and the promise alone: the stream goes on as if the frame had
    not arrived. *)
Lemma dropped_continues (engine : Engine) (this : LinkdAPI) (options : LinkdSearchOptions)
    (c : closure) (frame : option value) (now : Z) (e : exn) :
  fst (message_body engine frame now c) = inl e ->
  (forall m, frame = Some m -> is_str (get_opt m "type") "error" = false) ->
  timeoutId (step engine this options c (Message frame now)) = timeoutId c /\
  settled (step engine this options c (Message frame now)) = settled c /\
  ws (step engine this options c (Message frame now)) = ws c.
Proof.
  intros Hthrown Hkind. revert Hthrown. unfold message_body. run_handler. simpl.
  destruct frame as [m | ]; simpl; [ | intros _; repeat split].
  specialize (Hkind m eq_refl). unfold get_opt in Hkind.
  destruct (get_prop m "type") as [e0 | ty]; simpl; [intros _; repeat split | ].
  destruct (converts ty); simpl; [ | intros _; repeat split].
  rewrite Hkind.
  destruct (is_str ty "result") eqn:Hresult; simpl.
  - split_cases; intros Hthrown; try discriminate; repeat split.
  - split_cases; intros Hthrown; try discriminate; repeat split.
Qed.

Lemma step_sent (engine : Engine) (this : LinkdAPI) (options : LinkdSearchOptions) (c : closure)
    (ev : event) :
  exists extra,
    sent (ws (step engine this options c ev)) = (sent (ws c) ++ extra)%list /\
    Forall (fun frame => frame = query_message this options) extra.
Proof.
  destruct ev as [ | [m | ] t | e | | t]; run_handler; simpl;
    try (exists [query_message this options]; split; [reflexivity | repeat constructor]);
    split_cases;
    exists []; (split; [rewrite app_nil_r; reflexivity | constructor]).
Qed.

Lemma run_sent (engine : Engine) (this : LinkdAPI) (options : LinkdSearchOptions) (now : Z)
    (evs : list event) :
  Forall (fun frame => frame = query_message this options)
    (sent (ws (run engine this options now evs))).
Proof.
  induction evs as [ | ev evs IH] using rev_ind.
  - constructor.
  - rewrite run_snoc.
    destruct (step_sent engine this options (run engine this options now evs) ev)
      as (extra & Hsent & Hextra).
    rewrite Hsent. apply Forall_app. split; assumption.
Qed.

Lemma query_message_details (this : LinkdAPI) (options : LinkdSearchOptions) :
  details_included (query_message this options).
Proof.
  unfold details_included, query_message, get_opt. simpl.
  unfold js_or. destruct (includeDetails options) as [[ | ] | ]; reflexivity.
Qed.

(** The client is always built with the 30000 ms timeout. *)
Lemma constructor_timeout (key : string) (log : list log_entry) :
  exists log',
    constructor key log
    = (inr {| apiKey := key; baseUrl := "https://api.linkd.network"; timeout := 30000 |},
       log').
Proof.
  unfold constructor. run_program. destruct (negb (truthy (VStr key))); eexists; reflexivity.
Qed.

(** The resolved result shares the accumulator: a [result] frame that
    arrives after the deadline grows the [profiles] the caller holds, while
    [totalCount] stays what it was at resolution. *)
Remark late_result_reaches_resolved_profiles :
  resolved_with
    (run node sample_api sample_options 0
       [Open; Deadline 30000; Message (Some (result_frame [sample_profile 1] VUndefined)) 30001])
  = Some {| profiles := VArr [sample_profile 1]; totalCount := VNum 0;
            queryExecutionTime := VNum (Qmake 30000 1000) |}.
Proof. reflexivity. Qed.

(** C9: whatever the caller puts in [includeDetails], also [false], the
    [include_details] parameter of the synchronous request is [true], the
    [open] handler sends the query message, and every frame a streamed
    search sends carries [include_details: true]. *)
Theorem include_details_always_true (this : LinkdAPI) (options : LinkdSearchOptions) :
  lookup "include_details" (params (search_request this options)) = Some (VBool true) /\
  (forall engine now,
      sent (ws (run engine this options now [Open])) = [query_message this options]) /\
  (forall engine now evs,
      Forall details_included (sent (ws (run engine this options now evs)))).
Proof.
  split; [ | split].
  - simpl. unfold search_params. rewrite !lookup_assign. simpl.
    unfold js_or. destruct (includeDetails options) as [[ | ] | ]; reflexivity.
  - intros engine now. reflexivity.
  - intros engine now evs.
    eapply Forall_impl; [ | apply run_sent].
    intros frame ->. apply query_message_details.
Qed.

(** C2, as stated, fails: a transport error rejects the promise without a
    [close] call, and a second [complete] message calls [close] a second
    time. *)
Lemma close_not_exactly_once :
  ~ closed_exactly_once (run node sample_api sample_options 0 [Failure econnrefused]) /\
  ~ closed_exactly_once
      (run node sample_api sample_options 0
         [Open; Message (Some complete_frame) 10; Message (Some complete_frame) 20]).
Proof.
  split; intros Honce.
  - assert (Hzero : 0 = 1) by (apply Honce; discriminate). discriminate.
  - assert (Htwo : 2 = 1) by (apply Honce; discriminate). discriminate.
Qed.

(** C2, amended: the step that settles the promise calls [close] on the
    channel exactly once when it handles a [complete] message, an [error]
    message or the deadline, and not at all when it handles a transport
    error; if no terminal event came before, that call is the first one;
    and from a settling step other than a transport error on, [close] has
    been called at least once at every later point of the execution. *)
Theorem close_on_settling_step (engine : Engine) (this : LinkdAPI) (options : LinkdSearchOptions)
    (now : Z) (pre : list event) (ev : event) :
  settled (run engine this options now pre) = Pending ->
  settled (run engine this options now (pre ++ [ev])) <> Pending ->
  closed (ws (run engine this options now (pre ++ [ev])))
  = closed (ws (run engine this options now pre)) + (if is_failure ev then 0 else 1) /\
  (Forall (fun e => terminal e = false) pre ->
   closed (ws (run engine this options now pre)) = 0) /\
  (is_failure ev = false ->
   forall evs, 1 <= closed (ws (run engine this options now (pre ++ ev :: evs)))).
Proof.
  intros Hpending Hsettled. rewrite run_snoc in Hsettled.
  pose proof (step_settles engine this options _ ev Hpending Hsettled) as Hstep.
  split; [ | split].
  - rewrite run_snoc. exact Hstep.
  - intros Hpre. apply nonterminal_run. exact Hpre.
  - intros Hkind evs. rewrite Hkind in Hstep.
    rewrite run_app. simpl.
    pose proof (closed_monotone engine this options evs
                  (step engine this options (run engine this options now pre) ev)).
    lia.
Qed.

Lemma close_on_settling_step_witness :
  closed (ws (run node sample_api sample_options 0 [Open; Message (Some complete_frame) 10])) = 1 /\
  closed (ws (run node sample_api sample_options 0 [Open])) = 0 /\
  1 <= closed (ws (run node sample_api sample_options 0
                     [Open; Message (Some complete_frame) 10;
                      Message (Some complete_frame) 20])).
Proof.
  destruct (close_on_settling_step node sample_api sample_options 0 [Open]
              (Message (Some complete_frame) 10))
    as (Hstep & Hfirst & Hlater).
  - reflexivity.
  - discriminate.
  - split; [ | split].
    + exact Hstep.
    + apply Hfirst. repeat constructor.
    + apply (Hlater eq_refl [Message (Some complete_frame) 20]).
Defined.

(** Whenever it is handled, before or after the promise settled, a
    [complete] or [error] message makes the client call [close] once more. *)
Lemma terminal_message_closes (engine : Engine) (this : LinkdAPI)
    (options : LinkdSearchOptions) (c : closure) (m ty : value) (t : Z) :
  get_prop m "type" = inr ty ->
  is_str ty "complete" || is_str ty "error" = true ->
  closed (ws (step engine this options c (Message (Some m) t))) = S (closed (ws c)).
Proof.
  intros Htype Hkind. run_handler. simpl. rewrite Htype. simpl.
  destruct ty as [ | | | | s | | ]; simpl in Hkind; try discriminate. simpl.
  destruct (String.eqb s "result") eqn:Hresult.
  { apply String.eqb_eq in Hresult. subst s. discriminate. }
  destruct (String.eqb s "complete") eqn:Hcomplete; simpl.
  - destruct (timeoutId c); simpl; split_cases; reflexivity.
  - simpl in Hkind. rewrite Hkind.
    destruct (timeoutId c); simpl; split_cases; reflexivity.
Qed.

(** C3, as stated, fails: a [total_count] that is present and 0 is not the
    [totalCount] of the resolved result, which is 3. *)
Lemma present_zero_total_is_replaced :
  get_prop (result_frame three_profiles (VNum 0)) "data"
  = inr (VObj [("results", VArr three_profiles); ("total_count", VNum 0)]) /\
  resolved_with
    (run node sample_api sample_options 0
       [Open; Message (Some (result_frame three_profiles (VNum 0))) 5;
        Message (Some complete_frame) 9])
  = Some {| profiles := VArr three_profiles; totalCount := VNum 3;
            queryExecutionTime := VNum (Qmake 9 1000) |} /\
  VNum 3 <> VNum 0.
Proof.
  split; [reflexivity | ]. split; [reflexivity | discriminate].
Qed.

(** C3, amended: one [result] message with 3 profiles followed at once by
    [complete] resolves with exactly those 3 profiles; [totalCount] is the
    server's [total_count] when that is truthy (a number other than 0), and
    3 when it is missing or falsy. *)
Theorem result_then_complete (engine : Engine) (this : LinkdAPI) (options : LinkdSearchOptions)
    (now : Z) (pre : list event) (m d total_count done p1 p2 p3 : value) (t1 t2 : Z) :
  Forall (fun ev => ev = Open) pre ->
  get_prop m "type" = inr (VStr "result") ->
  get_prop m "data" = inr d ->
  get_prop d "results" = inr (VArr [p1; p2; p3]) ->
  get_prop d "total_count" = inr total_count ->
  get_prop done "type" = inr (VStr "complete") ->
  exists total,
    resolved_with
      (run engine this options now (pre ++ [Message (Some m) t1; Message (Some done) t2]))
    = Some {| profiles := VArr [p1; p2; p3]; totalCount := total;
              queryExecutionTime := VNum (Qmake (t2 - now) 1000) |} /\
    (truthy total_count = true -> total = total_count) /\
    (truthy total_count = false -> total = VNum 3).
Proof.
  intros Hpre Htype Hdata Hresults Htotal Hdone.
  destruct (only_open_run engine this options now pre Hpre)
    as (Hprofiles & _ & Hstart & _ & Hpending & _).
  rewrite run_app. simpl.
  assert (Hfits : (Z.of_nat (List.length [p1; p2; p3]) <= max_arguments engine)%Z)
    by (pose proof (max_arguments_ample engine); simpl; lia).
  destruct (step_result engine this options (run engine this options now pre) m d
              (VArr [p1; p2; p3]) total_count [p1; p2; p3] t1
              Htype Hdata Hresults eq_refl Hfits Htotal)
    as (Hacc & Hcount & Hstart' & _ & Hsettled & _).
  rewrite Hprofiles in Hacc, Hcount. simpl in Hacc, Hcount.
  rewrite Hpending in Hsettled. rewrite Hstart in Hstart'.
  destruct (step_complete engine this options _ done t2 Hdone Hsettled)
    as (Hresolved & Hacc' & _).
  rewrite Hcount, Hstart' in Hresolved. rewrite Hacc in Hacc'.
  exists (js_or total_count (VNum 3)). split; [ | split].
  - unfold resolved_with. rewrite Hresolved, Hacc'. reflexivity.
  - unfold js_or. intros ->. reflexivity.
  - unfold js_or. intros ->. reflexivity.
Qed.

Lemma result_then_complete_witness :
  resolved_with
    (run node sample_api sample_options 0
       [Open; Message (Some (result_frame three_profiles (VNum 40))) 5;
        Message (Some complete_frame) 9])
  = Some {| profiles := VArr three_profiles; totalCount := VNum 40;
            queryExecutionTime := VNum (Qmake 9 1000) |}.
Proof.
  destruct (result_then_complete node sample_api sample_options 0 [Open]
              (result_frame three_profiles (VNum 40))
              (VObj [("results", VArr three_profiles); ("total_count", VNum 40)])
              (VNum 40) complete_frame
              (sample_profile 1) (sample_profile 2) (sample_profile 3) 5 9
              (Forall_cons Open eq_refl (Forall_nil _))
              eq_refl eq_refl eq_refl eq_refl eq_refl)
    as (total & Hrun & Hpresent & _).
  rewrite (Hpresent eq_refl) in Hrun. exact Hrun.
Defined.

(** C4, as stated, fails: a search can receive no message before the
    deadline and still not resolve.  A transport error rejects it, and
    after a close event the deadline is cleared and the promise stays
    pending. *)
Lemma silent_search_may_not_resolve :
  settled (run node sample_api sample_options 0
             [Open; Failure econnrefused; Deadline 30000])
  = Rejected (Passed econnrefused) /\
  settled (run node sample_api sample_options 0 [Open; Close; Deadline 30000]) = Pending.
Proof. split; reflexivity. Qed.

(** C4, amended: a streamed search for which nothing but the channel
    opening precedes its deadline (set to the client's 30000 ms timeout)
    resolves, and does so with no profiles and [totalCount] 0. *)
Theorem silent_search_resolves_empty (engine : Engine) (this : LinkdAPI)
    (options : LinkdSearchOptions)
    (now : Z) (pre : list event) (t : Z) :
  Forall (fun ev => ev = Open) pre ->
  timeoutId (run engine this options now pre) = Armed (timeout this) /\
  resolved_with (run engine this options now (pre ++ [Deadline t]))
  = Some {| profiles := VArr []; totalCount := VNum 0;
            queryExecutionTime := VNum (Qmake (t - now) 1000) |}.
Proof.
  intros Hpre.
  destruct (only_open_run engine this options now pre Hpre)
    as (Hprofiles & _ & Hstart & Harmed & Hpending & _).
  split; [exact Harmed | ].
  rewrite run_snoc.
  destruct (step_deadline engine this options _ (timeout this) t Harmed Hpending)
    as (Hresolved & Hacc & _).
  unfold resolved_with. rewrite Hresolved, Hacc, Hprofiles, Hstart. reflexivity.
Qed.

Lemma silent_search_resolves_empty_witness :
  timeoutId (run node sample_api sample_options 0 [Open]) = Armed 30000 /\
  resolved_with (run node sample_api sample_options 0 [Open; Deadline 30000])
  = Some {| profiles := VArr []; totalCount := VNum 0;
            queryExecutionTime := VNum (Qmake 30000 1000) |}.
Proof.
  apply (silent_search_resolves_empty node sample_api sample_options 0 [Open] 30000).
  repeat constructor.
Defined.

Lemma step_timer_not_fired (engine : Engine) (this : LinkdAPI) (options : LinkdSearchOptions)
    (c : closure) (ev : event) :
  terminal ev = false -> timeoutId c <> Fired ->
  timeoutId (step engine this options c ev) <> Fired.
Proof.
  destruct ev as [ | [m | ] t | e | | t]; simpl; intros Hev Htimer; try discriminate;
    try assumption.
  - apply orb_false_elim in Hev. destruct Hev as [Hcomplete Herror].
    unfold get_opt in Hcomplete, Herror.
    run_handler. simpl.
    destruct (get_prop m "type") as [e | ty]; simpl; [assumption | ].
    rewrite Hcomplete, Herror. split_cases; assumption.
  - run_handler. simpl. destruct (timeoutId c) eqn:Hc; simpl; rewrite ?Hc; congruence.
Qed.

Lemma nonterminal_timer (engine : Engine) (this : LinkdAPI) (options : LinkdSearchOptions) (now : Z)
    (pre : list event) :
  Forall (fun ev => terminal ev = false) pre ->
  timeoutId (run engine this options now pre) <> Fired.
Proof.
  induction pre as [ | ev pre IH] using rev_ind; intros Hpre.
  - discriminate.
  - apply Forall_app in Hpre. destruct Hpre as [Hpre Hev].
    inversion Hev as [ | ev' rest Hterminal _]; subst.
    rewrite run_snoc. apply step_timer_not_fired; auto.
Qed.

(** Once the timer is not armed, its callback does nothing. *)
Lemma deadline_ignored (engine : Engine) (this : LinkdAPI) (options : LinkdSearchOptions)
    (c : closure) (t : Z) :
  (forall delay, timeoutId c <> Armed delay) ->
  step engine this options c (Deadline t) = c.
Proof.
  intros Htimer. unfold step, dispatch.
  destruct (timeoutId c) as [delay | | ] eqn:Hc; try reflexivity.
  exfalso. apply (Htimer delay). reflexivity.
Qed.

(** C5 does not hold for every [error] message: when the frame has no
    [data], or carries a message that does not convert to text, the handler
    has cleared the deadline and closed the channel by the time it throws;
    the promise is not rejected, it stays pending, and the deadline can no
    longer settle it. *)
Theorem error_frame_may_not_reject (engine : Engine) (this : LinkdAPI)
    (options : LinkdSearchOptions) (now : Z) (pre : list event) (m d : value) (t : Z) :
  Forall (fun ev => terminal ev = false) pre ->
  get_prop m "type" = inr (VStr "error") ->
  get_prop m "data" = inr d ->
  (get_prop d "message" = inl TypeError \/
   exists text, get_prop d "message" = inr text /\ converts text = false) ->
  let c := run engine this options now (pre ++ [Message (Some m) t]) in
  settled c = Pending /\
  closed (ws c) = 1 /\
  (forall t', step engine this options c (Deadline t') = c).
Proof.
  intros Hpre Htype Hdata Hbad c. subst c.
  destruct (nonterminal_run engine this options now pre Hpre) as [Hpending Hclosed].
  pose proof (nonterminal_timer engine this options now pre Hpre) as Htimer.
  rewrite run_snoc.
  assert (Hstep :
    let c' := step engine this options (run engine this options now pre)
                (Message (Some m) t) in
    settled c' = Pending /\ closed (ws c') = 1 /\ timeoutId c' = Cleared).
  { run_handler. simpl. rewrite Htype. simpl. rewrite Hdata.
    destruct Hbad as [Hmissing | (text & Htext & Hconverts)].
    - rewrite Hmissing.
      destruct (timeoutId (run engine this options now pre)) eqn:Hc; simpl;
        rewrite ?Hc, ?Hclosed; repeat split; try assumption; congruence.
    - rewrite Htext, Hconverts.
      destruct (timeoutId (run engine this options now pre)) eqn:Hc; simpl;
        rewrite ?Hc, ?Hclosed; repeat split; try assumption; congruence. }
  destruct Hstep as (Hsettled & Hclosed' & Hcleared).
  repeat split; try assumption.
  intros t'. apply deadline_ignored. intros delay. rewrite Hcleared. discriminate.
Qed.

Lemma error_frame_may_not_reject_witness :
  settled (run node sample_api sample_options 0 [Open; Message (Some bare_error_frame) 5])
  = Pending /\
  settled (run node sample_api sample_options 0
             [Open;
              Message (Some (VObj [("type", VStr "error");
                                   ("data", VObj [("message", unprintable)])])) 5])
  = Pending.
Proof.
  assert (Hpre : Forall (fun ev => terminal ev = false) [Open]) by (repeat constructor).
  split.
  - exact (proj1 (error_frame_may_not_reject node sample_api sample_options 0 [Open]
                    bare_error_frame VUndefined 5 Hpre eq_refl eq_refl
                    (or_introl eq_refl))).
  - exact (proj1 (error_frame_may_not_reject node sample_api sample_options 0 [Open]
                    (VObj [("type", VStr "error");
                           ("data", VObj [("message", unprintable)])])
                    (VObj [("message", unprintable)]) 5 Hpre eq_refl eq_refl
                    (or_intror (ex_intro _ unprintable (conj eq_refl eq_refl))))).
Defined.

(** X17: when an [error] message arrives before any terminal event and its
    [data] carries a message that converts to text, the promise rejects
    with an [Error] built from that message; when the message is a text,
    the text of the rejection is exactly that text. *)
Theorem error_message_rejects_verbatim (engine : Engine) (this : LinkdAPI)
    (options : LinkdSearchOptions) (now : Z) (pre : list event)
    (m d supplied : value) (t : Z) :
  Forall (fun ev => terminal ev = false) pre ->
  get_prop m "type" = inr (VStr "error") ->
  get_prop m "data" = inr d ->
  get_prop d "message" = inr supplied ->
  converts supplied = true ->
  settled (run engine this options now (pre ++ [Message (Some m) t]))
  = Rejected (NewError supplied) /\
  (forall text, supplied = VStr text -> Error_message (NewError supplied) = Some text).
Proof.
  intros Hpre Htype Hdata Htext Hconverts.
  destruct (nonterminal_run engine this options now pre Hpre) as [Hpending _].
  rewrite run_snoc.
  destruct (step_error engine this options _ m d supplied t Htype Hdata Htext Hconverts
              Hpending)
    as [Hrejected _].
  split; [exact Hrejected | ]. intros text ->. reflexivity.
Qed.

Lemma error_message_rejects_verbatim_witness :
  exists r,
    settled (run node sample_api sample_options 0
               [Open; Message (Some (result_frame three_profiles VUndefined)) 5;
                Message (Some (error_frame "quota exceeded")) 7])
    = Rejected r /\
    Error_message r = Some "quota exceeded".
Proof.
  assert (Hpre : Forall (fun ev => terminal ev = false)
                   [Open; Message (Some (result_frame three_profiles VUndefined)) 5])
    by (repeat constructor).
  destruct (error_message_rejects_verbatim node sample_api sample_options 0
              [Open; Message (Some (result_frame three_profiles VUndefined)) 5]
              (error_frame "quota exceeded") (VObj [("message", VStr "quota exceeded")])
              (VStr "quota exceeded") 7 Hpre eq_refl eq_refl eq_refl eq_refl)
    as [Hrejected Htext].
  exists (NewError (VStr "quota exceeded")). split.
  - exact Hrejected.
  - apply Htext. reflexivity.
Defined.

(** C7 does not hold for an [error] frame without [data]: the handler has
    cleared the deadline and closed the channel when reading the text
    throws; the frame is logged as unparseable, the promise stays pending,
    and the deadline that would have settled it no longer fires. *)
Theorem bare_error_frame_stalls :
  let before := run node sample_api sample_options 0 [Open] in
  let after := step node sample_api sample_options before (Message (Some bare_error_frame) 5) in
  fst (message_body node (Some bare_error_frame) 5 before) = inl TypeError /\
  In (parse_error_line TypeError) (stdout after) /\
  timeoutId before = Armed 30000 /\ timeoutId after = Cleared /\
  closed (ws before) = 0 /\ closed (ws after) = 1 /\
  settled after = Pending /\
  settled (step node sample_api sample_options before (Deadline 30000)) <> Pending /\
  settled (step node sample_api sample_options after (Deadline 30000)) = Pending.
Proof.
  simpl. repeat split; try reflexivity.
  - right. right. right. right. left. reflexivity.
  - discriminate.
Qed.

(** C10: when the deadline settles a streamed search, the resolved
    [totalCount] is the number of profiles accumulated so far, whatever
    running total the [result] messages supplied. *)
Theorem deadline_counts_accumulated (engine : Engine) (this : LinkdAPI)
    (options : LinkdSearchOptions)
    (now : Z) (pre : list event) (delay t : Z) :
  settled (run engine this options now pre) = Pending ->
  timeoutId (run engine this options now pre) = Armed delay ->
  resolved_with (run engine this options now (pre ++ [Deadline t]))
  = Some {| profiles := VArr (acc_profiles (run engine this options now pre));
            totalCount := num_of_nat (List.length (acc_profiles (run engine this options now pre)));
            queryExecutionTime :=
              VNum (Qmake (t - startTime (run engine this options now pre)) 1000) |}.
Proof.
  intros Hpending Harmed. rewrite run_snoc.
  destruct (step_deadline engine this options _ delay t Harmed Hpending)
    as (Hresolved & Hacc & _).
  unfold resolved_with. rewrite Hresolved, Hacc. reflexivity.
Qed.

Lemma deadline_counts_accumulated_witness :
  acc_totalCount
    (run node sample_api sample_options 0
       [Open; Message (Some (result_frame [sample_profile 1] (VNum 100))) 5])
  = VNum 100 /\
  resolved_with
    (run node sample_api sample_options 0
       [Open; Message (Some (result_frame [sample_profile 1] (VNum 100))) 5;
        Deadline 30000])
  = Some {| profiles := VArr [sample_profile 1]; totalCount := VNum 1;
            queryExecutionTime := VNum (Qmake 30000 1000) |}.
Proof.
  split; [reflexivity | ].
  apply (deadline_counts_accumulated node sample_api sample_options 0
           [Open; Message (Some (result_frame [sample_profile 1] (VNum 100))) 5]
           30000 30000);
    reflexivity.
Defined.

(* ================================================================== *)
(** ** Further properties of the synchronous operations *)

(** The two searches share their [try] block: once the body has been read,
    every throw inside it is a [TypeError], which the [catch] block can
    always print. *)
Lemma searchProfiles_after_response {S} `{Console S} (net : network) (this : LinkdAPI)
    (options : LinkdSearchOptions) (s : S) (d : value) :
  net (search_request this options) = inr d ->
  exists r s', searchProfiles net this options s = (inr r, s').
Proof.
  intros Hnet. unfold searchProfiles. run_program. rewrite Hnet.
  read d "results".
  - caught. do 2 eexists. reflexivity.
  - destruct (readable_any d x "results" "total_count" Hread) as [tc Htc].
    destruct (readable_any d x "results" "execution_time" Hread) as [et Het].
    rewrite Htc, Het.
    destruct (js_or_readable x (VArr []) "length") as [n Hn].
    { eexists; reflexivity. }
    destruct (truthy tc).
    + cbn [profiles totalCount]. rewrite Hn.
      destruct (converts n); [ | caught; do 2 eexists; reflexivity].
      destruct (converts tc); [ | caught; do 2 eexists; reflexivity].
      do 2 eexists. reflexivity.
    + read x "length".
      * caught. do 2 eexists. reflexivity.
      * cbn [profiles totalCount]. rewrite Hn.
        destruct (converts n); [ | caught; do 2 eexists; reflexivity].
        destruct (converts x0); [ | caught; do 2 eexists; reflexivity].
        do 2 eexists. reflexivity.
Qed.

(** X1: [searchProfiles] rejects in one case only.  After a successful HTTP
    call it returns a result whatever the body is; after a failed call it
    returns the empty result, unless the error is one [handleApiError]
    cannot print (an axios error whose message does not convert to text):
    then the [TypeError] thrown in the [catch] block escapes. *)
Theorem searchProfiles_rejects_only_unprintable {S} `{Console S} (net : network)
    (this : LinkdAPI) (options : LinkdSearchOptions) (s : S) :
  match net (search_request this options) with
  | inr _ => exists r s', searchProfiles net this options s = (inr r, s')
  | inl e =>
      if reportable e
      then exists s', searchProfiles net this options s = (inr empty_result, s')
      else exists s', searchProfiles net this options s = (inl TypeError, s')
  end.
Proof.
  destruct (net (search_request this options)) as [e | d] eqn:Hnet.
  - unfold searchProfiles. run_program. rewrite Hnet.
    destruct (reportable e) eqn:Hprint.
    + caught. eexists. reflexivity.
    + match goal with
      | |- context [handleApiError ?n ?x ?st] =>
          rewrite (handleApiError_throws n x st Hprint)
      end.
      eexists. reflexivity.
  - apply (searchProfiles_after_response net this options s d Hnet).
Qed.

(** X2: [findProfileMatches] behaves the same way: a result after every
    successful call, the empty result after a failed call whose error can be
    printed, a rejection with [TypeError] after one whose error cannot. *)
Theorem findProfileMatches_falls_back {S} `{Console S} (net : network) (this : LinkdAPI)
    (profileId : string) (options : LinkdSearchOptions) (s : S) :
  match net (matches_request this profileId options) with
  | inr _ => exists r s', findProfileMatches net this profileId options s = (inr r, s')
  | inl e =>
      if reportable e
      then exists s',
          findProfileMatches net this profileId options s = (inr empty_result, s')
      else exists s',
          findProfileMatches net this profileId options s = (inl TypeError, s')
  end.
Proof.
  unfold findProfileMatches. run_program.
  destruct (net (matches_request this profileId options)) as [e | d].
  - destruct (reportable e) eqn:Hprint.
    + caught. eexists. reflexivity.
    + match goal with
      | |- context [handleApiError ?n ?x ?st] =>
          rewrite (handleApiError_throws n x st Hprint)
      end.
      eexists. reflexivity.
  - read d "matches".
    + caught. do 2 eexists. reflexivity.
    + destruct (readable_any d x "matches" "total_count" Hread) as [tc Htc].
      destruct (readable_any d x "matches" "execution_time" Hread) as [et Het].
      rewrite Htc, Het.
      destruct (js_or_readable x (VArr []) "length") as [n Hn].
      { eexists; reflexivity. }
      destruct (truthy tc).
      * cbn [profiles totalCount]. rewrite Hn.
        destruct (converts n); [ | caught; do 2 eexists; reflexivity].
        do 2 eexists. reflexivity.
      * read x "length".
        -- caught. do 2 eexists. reflexivity.
        -- cbn [profiles totalCount]. rewrite Hn.
           destruct (converts n); [ | caught; do 2 eexists; reflexivity].
           do 2 eexists. reflexivity.
Qed.

(** X3: on a response whose [results] is an array and whose [total_count]
    converts to text, [searchProfiles] hands that array back as it is (same
    entries, same order, nothing cut); [totalCount] is the server's
    [total_count] when truthy and the length of the array otherwise,
    [queryExecutionTime] is [execution_time] or 0, and the console gets the
    two lines of a successful search. *)
Theorem searchProfiles_passes_results_through (net : network) (this : LinkdAPI)
    (options : LinkdSearchOptions) (log : list log_entry)
    (d total_count execution_time : value) (rs : list value) :
  net (search_request this options) = inr d ->
  get_prop d "results" = inr (VArr rs) ->
  get_prop d "total_count" = inr total_count ->
  get_prop d "execution_time" = inr execution_time ->
  converts total_count = true ->
  let total := if truthy total_count then total_count else num_of_nat (List.length rs) in
  searchProfiles net this options log
  = (inr {| profiles := VArr rs; totalCount := total;
            queryExecutionTime := js_or execution_time (VNum 0) |},
     (log ++ [(Log, [Lit "Searching for profiles with query: ";
                     Interp (VStr (query options))]);
              (Log, [Lit "Found "; Interp (num_of_nat (List.length rs));
                     Lit " profiles (total: "; Interp total; Lit ")"])])%list).
Proof.
  intros Hnet Hresults Htotal Htime Hconverts. unfold searchProfiles. run_program.
  rewrite Hnet, Hresults, Htotal, Htime.
  destruct (truthy total_count); simpl; rewrite ?Hconverts; simpl;
    rewrite <- app_assoc; reflexivity.
Qed.

Lemma searchProfiles_passes_results_through_witness :
  fst (searchProfiles overfull_network sample_api sample_options ([] : list log_entry))
  = inr {| profiles := VArr three_profiles; totalCount := VNum 1;
           queryExecutionTime := VNum 0 |}.
Proof.
  rewrite (searchProfiles_passes_results_through overfull_network sample_api
             sample_options []
             (VObj [("results", VArr three_profiles); ("total_count", VNum 1)])
             (VNum 1) VUndefined three_profiles eq_refl eq_refl eq_refl eq_refl eq_refl).
  reflexivity.
Defined.

(** X4: a successful response is not always reported as one.  Without
    [results] and with a falsy [total_count], reading [results.length]
    throws; with a truthy [total_count] that does not convert to text, on a
    [results] array, the line that reports the search throws.  Either way
    the client logs an unexpected [TypeError] and returns the empty result,
    dropping what the server sent. *)
Theorem searchProfiles_drops_response (net : network) (this : LinkdAPI)
    (options : LinkdSearchOptions) (log : list log_entry)
    (d results total_count : value) :
  net (search_request this options) = inr d ->
  get_prop d "results" = inr results ->
  get_prop d "total_count" = inr total_count ->
  (results = VUndefined /\ truthy total_count = false) \/
  ((exists rs, results = VArr rs) /\ truthy total_count = true /\
   converts total_count = false) ->
  searchProfiles net this options log
  = (inr empty_result,
     (log ++ [(Log, [Lit "Searching for profiles with query: ";
                     Interp (VStr (query options))]);
              unexpected_error "searchProfiles" TypeError])%list).
Proof.
  intros Hnet Hresults Htotal Hcase.
  destruct (readable_any d results "results" "execution_time" Hresults) as [et Het].
  unfold searchProfiles. run_program. rewrite Hnet, Hresults, Htotal.
  destruct Hcase as [[-> Hfalsy] | [[rs ->] [Htruthy Hconverts]]].
  - rewrite Hfalsy. simpl. rewrite <- app_assoc. reflexivity.
  - rewrite Htruthy, Het. simpl. rewrite Hconverts. simpl.
    rewrite <- app_assoc. reflexivity.
Qed.

Lemma searchProfiles_drops_response_witness :
  fst (searchProfiles (fun _ => inr (VObj [])) sample_api sample_options
         ([] : list log_entry)) = inr empty_result /\
  fst (searchProfiles
         (fun _ => inr (VObj [("results", VArr three_profiles);
                              ("total_count", unprintable)]))
         sample_api sample_options ([] : list log_entry)) = inr empty_result.
Proof.
  split.
  - rewrite (searchProfiles_drops_response (fun _ => inr (VObj [])) sample_api
               sample_options [] (VObj []) VUndefined VUndefined eq_refl eq_refl eq_refl
               (or_introl (conj eq_refl eq_refl))).
    reflexivity.
  - rewrite (searchProfiles_drops_response
               (fun _ => inr (VObj [("results", VArr three_profiles);
                                    ("total_count", unprintable)]))
               sample_api sample_options []
               (VObj [("results", VArr three_profiles); ("total_count", unprintable)])
               (VArr three_profiles) unprintable eq_refl eq_refl eq_refl
               (or_intror (conj (ex_intro _ three_profiles eq_refl)
                                (conj eq_refl eq_refl)))).
    reflexivity.
Defined.

Lemma lookup_spread_absent (k : string) (src acc : list (string * value)) :
  (forall v, ~ In (k, v) src) ->
  lookup k (spread_fields src acc) = lookup k acc.
Proof.
  unfold spread_fields. revert acc.
  induction src as [ | [k0 v0] src IH]; intros acc Habsent; simpl.
  - reflexivity.
  - rewrite IH.
    + rewrite lookup_assign. destruct (String.eqb k k0) eqn:Hk; [ | reflexivity].
      apply String.eqb_eq in Hk. subst k0.
      exfalso. apply (Habsent v0). left. reflexivity.
    + intros v Hin. apply (Habsent v). right. exact Hin.
Qed.

Lemma lookup_spread_present (k : string) (v : value) (src acc : list (string * value)) :
  NoDup (map fst src) -> In (k, v) src ->
  lookup k (spread_fields src acc) = Some v.
Proof.
  unfold spread_fields. revert acc.
  induction src as [ | [k0 v0] src IH]; intros acc Hnodup Hin; simpl.
  - destruct Hin.
  - inversion Hnodup as [ | k' keys Hfresh Hrest]; subst.
    destruct Hin as [Hhead | Htail].
    + injection Hhead as -> ->.
      change (lookup k (spread_fields src (assign k v acc)) = Some v).
      rewrite lookup_spread_absent.
      * rewrite lookup_assign, String.eqb_refl. reflexivity.
      * intros v' Hin. apply Hfresh. apply (in_map fst) in Hin. exact Hin.
    + apply IH; assumption.
Qed.

(** X5: in the parameters of the synchronous search the client's own
    [limit], [include_details], [sort_by] and [sort_order] always win over
    filters of the same name, every other filter reaches the server with its
    value, and so a filter named [query] replaces the search text; without
    such a filter the text is [options.query].  The streamed query message
    nests the filters, so its [query] is always [options.query]. *)
Theorem search_params_precedence (this : LinkdAPI) (options : LinkdSearchOptions) :
  (lookup "limit" (search_params options) = Some (VNum (limit options)) /\
   lookup "include_details" (search_params options) = Some (VBool true) /\
   lookup "sort_by" (search_params options) = Some (opt VStr (sortBy options)) /\
   lookup "sort_order" (search_params options) = Some (opt of_order (sortOrder options))) /\
  (forall f k v,
      filters options = Some f -> NoDup (map fst f) -> In (k, v) f ->
      ~ In k own_params ->
      lookup k (search_params options) = Some v) /\
  ((forall f v, filters options = Some f -> ~ In ("query", v) f) ->
   lookup "query" (search_params options) = Some (VStr (query options))) /\
  get_opt (get_opt (query_message this options) "data") "query" = VStr (query options).
Proof.
  split; [ | split; [ | split]].
  - pose proof (limit_sent this options) as Hlimit. simpl in Hlimit.
    split; [exact Hlimit | ].
    unfold search_params. rewrite !lookup_assign. simpl.
    unfold js_or. destruct (includeDetails options) as [[ | ] | ]; repeat split.
  - intros f k v Hf Hnodup Hin Hown.
    unfold search_params. rewrite Hf, !lookup_assign.
    destruct (String.eqb k "sort_order") eqn:H1.
    { apply String.eqb_eq in H1. subst k. exfalso. apply Hown. simpl. auto. }
    destruct (String.eqb k "sort_by") eqn:H2.
    { apply String.eqb_eq in H2. subst k. exfalso. apply Hown. simpl. auto. }
    destruct (String.eqb k "include_details") eqn:H3.
    { apply String.eqb_eq in H3. subst k. exfalso. apply Hown. simpl. auto. }
    destruct (String.eqb k "limit") eqn:H4.
    { apply String.eqb_eq in H4. subst k. exfalso. apply Hown. simpl. auto. }
    apply lookup_spread_present; assumption.
  - intros Habsent. unfold search_params. rewrite !lookup_assign. simpl.
    rewrite lookup_spread_absent.
    + reflexivity.
    + destruct (filters options) as [f | ].
      * intros v. apply (Habsent f v). reflexivity.
      * intros v [].
  - reflexivity.
Qed.

Lemma search_params_precedence_witness :
  lookup "query" (search_params filtered_options) = Some (VStr "anyone") /\
  lookup "limit" (search_params filtered_options) = Some (VNum 2) /\
  lookup "query" (search_params sample_options) = Some (VStr "ucla alumni").
Proof.
  destruct (search_params_precedence sample_api filtered_options)
    as ((Hlimit & _) & Hfilter & _ & _).
  destruct (search_params_precedence sample_api sample_options)
    as (_ & _ & Hquery & _).
  split; [ | split].
  - apply (Hfilter [("query", VStr "anyone"); ("limit", VNum 1000); ("school", VStr "UCLA")]).
    + reflexivity.
    + repeat constructor; simpl; intuition discriminate.
    + left. reflexivity.
    + simpl. intuition discriminate.
  - exact Hlimit.
  - apply Hquery. intros f v Hf. discriminate Hf.
Defined.

(** Building a client never fails and always fixes the base URL and the
    30000 ms timeout; it warns on the console exactly when the key is the
    empty string. *)
Lemma constructor_warns_without_key (key : string) (log : list log_entry) :
  constructor key log
  = (inr {| apiKey := key; baseUrl := "https://api.linkd.network"; timeout := 30000 |},
     if String.eqb key "" then (log ++ [missing_key_warning])%list else log).
Proof.
  unfold constructor. run_program. simpl.
  destruct (String.eqb key ""); reflexivity.
Qed.

(* ================================================================== *)
(** ** Further properties of the streamed search *)

Lemma fold_result_messages (engine : Engine) (this : LinkdAPI)
    (options : LinkdSearchOptions) (c : closure) (batches : list (list value * value))
    (t : Z) :
  fits engine batches ->
  let c' := fold_left (step engine this options) (result_messages batches t) c in
  acc_profiles c' = (acc_profiles c ++ concat (map fst batches))%list /\
  acc_totalCount c'
  = match rev batches with
    | [] => acc_totalCount c
    | (_, total_count) :: _ =>
        js_or total_count
          (num_of_nat (List.length (acc_profiles c ++ concat (map fst batches))))
    end /\
  startTime c' = startTime c /\ timeoutId c' = timeoutId c /\
  settled c' = settled c /\ ws c' = ws c.
Proof.
  induction batches as [ | [ps total_count] batches IH] using rev_ind; simpl; intros Hfits.
  - rewrite app_nil_r. repeat split.
  - apply Forall_app in Hfits. destruct Hfits as [Hfits Hlast].
    inversion Hlast as [ | batch rest Hps _]; subst. simpl in Hps.
    unfold result_messages in *. rewrite map_app, fold_left_app. simpl.
    destruct (IH Hfits) as (Hprofiles & _ & Hstart & Htimer & Hsettled & Hws).
    destruct (step_result engine this options
                (fold_left (step engine this options)
                   (map (fun batch => Message (Some (result_frame (fst batch) (snd batch))) t)
                      batches) c)
                (result_frame ps total_count)
                (VObj [("results", VArr ps); ("total_count", total_count)])
                (VArr ps) total_count ps t eq_refl eq_refl eq_refl eq_refl Hps eq_refl)
      as (Hprofiles' & Htotal' & Hstart' & Htimer' & Hsettled' & Hws').
    rewrite Hprofiles in Hprofiles', Htotal'.
    rewrite map_app, concat_app, rev_app_distr. simpl.
    rewrite app_nil_r, app_assoc.
    repeat split; congruence.
Qed.

(** X6: the profiles of successive [result] frames, each small enough to
    be spread into one call, are appended in arrival order; when [complete]
    follows, the search resolves with their concatenation, and [totalCount]
    is decided by the last frame alone: its [total_count] when truthy, the
    number of accumulated profiles otherwise, and 0 when no [result] frame
    came. *)
Theorem results_accumulate_in_order (engine : Engine) (this : LinkdAPI)
    (options : LinkdSearchOptions)
    (now : Z) (pre : list event) (batches : list (list value * value))
    (done : value) (t t' : Z) :
  Forall (fun ev => ev = Open) pre ->
  fits engine batches ->
  get_prop done "type" = inr (VStr "complete") ->
  resolved_with
    (run engine this options now
       (pre ++ result_messages batches t ++ [Message (Some done) t']))
  = Some {| profiles := VArr (concat (map fst batches));
            totalCount :=
              match rev batches with
              | [] => VNum 0
              | (_, total_count) :: _ =>
                  js_or total_count
                    (num_of_nat (List.length (concat (map fst batches))))
              end;
            queryExecutionTime := VNum (Qmake (t' - now) 1000) |}.
Proof.
  intros Hpre Hfits Hdone.
  destruct (only_open_run engine this options now pre Hpre)
    as (Hprofiles & Htotal & Hstart & _ & Hpending & _).
  rewrite run_app, fold_left_app. simpl.
  destruct (fold_result_messages engine this options (run engine this options now pre)
              batches t Hfits)
    as (Hacc & Hcount & Hstart' & _ & Hsettled & _).
  rewrite Hprofiles in Hacc, Hcount. rewrite Htotal in Hcount. simpl in Hacc, Hcount.
  rewrite Hpending in Hsettled. rewrite Hstart in Hstart'.
  destruct (step_complete engine this options _ done t' Hdone Hsettled)
    as (Hresolved & Hacc' & _).
  unfold resolved_with. rewrite Hresolved, Hacc', Hacc, Hcount, Hstart'. reflexivity.
Qed.

Lemma results_accumulate_in_order_witness :
  resolved_with
    (run node sample_api sample_options 0
       [Open;
        Message (Some (result_frame [sample_profile 1; sample_profile 2] (VNum 7))) 5;
        Message (Some (result_frame [sample_profile 3] VUndefined)) 5;
        Message (Some complete_frame) 9])
  = Some {| profiles := VArr three_profiles; totalCount := VNum 3;
            queryExecutionTime := VNum (Qmake 9 1000) |}.
Proof.
  apply (results_accumulate_in_order node sample_api sample_options 0 [Open]
           [([sample_profile 1; sample_profile 2], VNum 7); ([sample_profile 3], VUndefined)]
           complete_frame 5 9).
  - repeat constructor.
  - repeat constructor; simpl; lia.
  - reflexivity.
Defined.

(** X7: a transport error that comes before any terminal event rejects the
    promise with that very error; the client has not called [close], the
    deadline is cleared and its callback no longer has any effect. *)
Theorem transport_error_rejects (engine : Engine) (this : LinkdAPI) (options : LinkdSearchOptions)
    (now : Z) (pre : list event) (error : exn) :
  Forall (fun ev => terminal ev = false) pre ->
  let c := run engine this options now (pre ++ [Failure error]) in
  settled c = Rejected (Passed error) /\
  closed (ws c) = 0 /\
  timeoutId c = Cleared /\
  (forall t, step engine this options c (Deadline t) = c).
Proof.
  intros Hpre c. subst c.
  destruct (nonterminal_run engine this options now pre Hpre) as [Hpending Hclosed].
  pose proof (nonterminal_timer engine this options now pre Hpre) as Htimer.
  rewrite run_snoc.
  assert (Hstep :
    let c' := step engine this options (run engine this options now pre) (Failure error) in
    settled c' = Rejected (Passed error) /\ closed (ws c') = 0 /\ timeoutId c' = Cleared).
  { run_handler. simpl.
    destruct (timeoutId (run engine this options now pre)) eqn:Hc; simpl;
      rewrite ?Hpending; simpl; rewrite ?Hc; repeat split; try assumption; congruence. }
  destruct Hstep as (Hrejected & Hclosed' & Hcleared).
  repeat split; try assumption.
  intros t. apply deadline_ignored. intros delay. rewrite Hcleared. discriminate.
Qed.

Lemma transport_error_rejects_witness :
  settled (run node sample_api sample_options 0 [Open; Failure econnrefused])
  = Rejected (Passed econnrefused) /\
  closed (ws (run node sample_api sample_options 0 [Open; Failure econnrefused])) = 0.
Proof.
  destruct (transport_error_rejects node sample_api sample_options 0 [Open] econnrefused)
    as (Hrejected & Hclosed & _).
  - repeat constructor.
  - split; assumption.
Defined.

Lemma step_idle_cleared (engine : Engine) (this : LinkdAPI) (options : LinkdSearchOptions)
    (c : closure) (ev : event) :
  idle ev = true -> settled c = Pending -> timeoutId c = Cleared ->
  settled (step engine this options c ev) = Pending /\
  timeoutId (step engine this options c ev) = Cleared.
Proof.
  intros Hidle Hpending Hcleared.
  destruct ev as [ | frame t | e | | t]; try discriminate.
  - split; assumption.
  - run_handler. simpl. rewrite Hcleared. simpl. split; assumption.
  - unfold step, dispatch. rewrite Hcleared. simpl. split; assumption.
Qed.

(** X8: when the channel's [close] event comes before any terminal event,
    its handler clears the deadline and settles nothing: the promise is
    still pending, and it stays pending however long the caller waits (no
    timer callback, reopening or second close settles it). *)
Theorem close_before_terminal_hangs (engine : Engine) (this : LinkdAPI)
    (options : LinkdSearchOptions)
    (now : Z) (pre rest : list event) :
  Forall (fun ev => terminal ev = false) pre ->
  Forall (fun ev => idle ev = true) rest ->
  settled (run engine this options now (pre ++ Close :: rest)) = Pending /\
  timeoutId (run engine this options now (pre ++ Close :: rest)) = Cleared.
Proof.
  intros Hpre Hrest.
  destruct (nonterminal_run engine this options now pre Hpre) as [Hpending _].
  pose proof (nonterminal_timer engine this options now pre Hpre) as Htimer.
  rewrite run_app. simpl.
  assert (Hclose :
    settled (step engine this options (run engine this options now pre) Close) = Pending /\
    timeoutId (step engine this options (run engine this options now pre) Close) = Cleared).
  { run_handler. simpl.
    destruct (timeoutId (run engine this options now pre)) eqn:Hc; simpl; rewrite ?Hc;
      split; congruence. }
  revert Hclose. generalize (step engine this options (run engine this options now pre) Close).
  induction rest as [ | ev rest IH]; intros c [Hc_pending Hc_cleared]; simpl.
  - split; assumption.
  - inversion Hrest as [ | ev' rest' Hidle Hrest']; subst.
    apply IH; [exact Hrest' | ].
    apply step_idle_cleared; assumption.
Qed.

Lemma close_before_terminal_hangs_witness :
  settled (run node sample_api sample_options 0
             [Open; Message (Some (result_frame three_profiles VUndefined)) 5;
              Close; Deadline 30000])
  = Pending.
Proof.
  assert (Hpre : Forall (fun ev => terminal ev = false)
                   [Open; Message (Some (result_frame three_profiles VUndefined)) 5])
    by (repeat constructor).
  assert (Hrest : Forall (fun ev => idle ev = true) [Deadline 30000])
    by (repeat constructor).
  exact (proj1 (close_before_terminal_hangs node sample_api sample_options 0 _ _ Hpre Hrest)).
Defined.

(** X9: a frame whose [type] converts to text and is none of [result],
    [complete] and [error] changes nothing: the handler only logs the type
    it received. *)
Theorem other_frames_ignored (engine : Engine) (this : LinkdAPI) (options : LinkdSearchOptions)
    (c : closure) (m ty : value) (t : Z) :
  get_prop m "type" = inr ty ->
  converts ty = true ->
  is_str ty "result" = false ->
  is_str ty "complete" = false ->
  is_str ty "error" = false ->
  step engine this options c (Message (Some m) t)
  = emit (Log, [Lit "Received WebSocket message of type: "; Interp ty]) c.
Proof.
  intros Htype Hconverts Hresult Hcomplete Herror. run_handler. simpl.
  rewrite Htype. simpl. rewrite Hconverts. simpl.
  rewrite Hresult, Hcomplete, Herror. reflexivity.
Qed.

Lemma other_frames_ignored_witness :
  step node sample_api sample_options (run node sample_api sample_options 0 [Open])
    (Message (Some (VObj [("type", VStr "progress"); ("data", VNum 50)])) 5)
  = emit (Log, [Lit "Received WebSocket message of type: "; Interp (VStr "progress")])
      (run node sample_api sample_options 0 [Open]).
Proof.
  apply (other_frames_ignored node sample_api sample_options
           (run node sample_api sample_options 0 [Open])
           (VObj [("type", VStr "progress"); ("data", VNum 50)]) (VStr "progress") 5);
    reflexivity.
Defined.

(** X10: the resolved result is not a snapshot.  A [result] frame that is
    handled after the promise resolved, and is small enough to be spread
    into one call, appends its profiles to the
    [profiles] the caller already holds, while the resolved [totalCount]
    and [queryExecutionTime] stay as they were. *)
Theorem late_result_grows_resolved_profiles (engine : Engine) (this : LinkdAPI)
    (options : LinkdSearchOptions) (now : Z) (pre : list event)
    (total time m d results total_count : value) (items : list value) (t : Z) :
  settled (run engine this options now pre) = Resolved total time ->
  get_prop m "type" = inr (VStr "result") ->
  get_prop m "data" = inr d ->
  get_prop d "results" = inr results ->
  iterate results = inr items ->
  (Z.of_nat (List.length items) <= max_arguments engine)%Z ->
  get_prop d "total_count" = inr total_count ->
  resolved_with (run engine this options now (pre ++ [Message (Some m) t]))
  = Some {| profiles := VArr (acc_profiles (run engine this options now pre) ++ items);
            totalCount := total; queryExecutionTime := time |}.
Proof.
  intros Hresolved Htype Hdata Hresults Hitems Hfits Htotal. rewrite run_snoc.
  destruct (step_result engine this options (run engine this options now pre) m d results
              total_count items t Htype Hdata Hresults Hitems Hfits Htotal)
    as (Hacc & _ & _ & _ & Hsettled & _).
  unfold resolved_with. rewrite Hsettled, Hresolved, Hacc. reflexivity.
Qed.

Lemma late_result_grows_resolved_profiles_witness :
  resolved_with
    (run node sample_api sample_options 0
       [Open; Message (Some complete_frame) 9;
        Message (Some (result_frame three_profiles (VNum 3))) 10])
  = Some {| profiles := VArr three_profiles; totalCount := VNum 0;
            queryExecutionTime := VNum (Qmake 9 1000) |}.
Proof.
  apply (late_result_grows_resolved_profiles node sample_api sample_options 0
           [Open; Message (Some complete_frame) 9] (VNum 0) (VNum (Qmake 9 1000))
           (result_frame three_profiles (VNum 3))
           (VObj [("results", VArr three_profiles); ("total_count", VNum 3)])
           (VArr three_profiles) (VNum 3) three_profiles 10);
    first [reflexivity | simpl; lia].
Defined.

Lemma step_sent_on_open (engine : Engine) (this : LinkdAPI)
    (options : LinkdSearchOptions) (c : closure)
    (ev : event) :
  sent (ws (step engine this options c ev))
  = (sent (ws c) ++ if is_open ev then [query_message this options] else [])%list.
Proof.
  destruct ev as [ | [m | ] t | e | | t]; run_handler; simpl;
    try reflexivity; split_cases; rewrite app_nil_r; reflexivity.
Qed.

(** X11: the client sends exactly one frame, the query message, each time
    the channel reports [open], and never sends anything else, whatever the
    server delivers. *)
Theorem one_query_per_open (engine : Engine) (this : LinkdAPI)
    (options : LinkdSearchOptions) (now : Z)
    (evs : list event) :
  sent (ws (run engine this options now evs))
  = repeat (query_message this options) (List.length (filter is_open evs)).
Proof.
  induction evs as [ | ev evs IH] using rev_ind.
  - reflexivity.
  - rewrite run_snoc, step_sent_on_open, IH, filter_app, length_app, repeat_app.
    simpl. destruct (is_open ev); reflexivity.
Qed.

(** X12: a frame on which the [try] block of the message handler throws is
    logged as a parse error and alters neither the accumulated profiles nor
    the running total; unless its type is [error], it also leaves the
    deadline, the channel and the promise untouched. *)
Theorem dropped_frame_effect (engine : Engine) (this : LinkdAPI) (options : LinkdSearchOptions)
    (c : closure) (frame : option value) (now : Z) (e : exn) :
  fst (message_body engine frame now c) = inl e ->
  let c' := step engine this options c (Message frame now) in
  (exists lines, stdout c' = (stdout c ++ lines ++ [parse_error_line e])%list) /\
  acc_profiles c' = acc_profiles c /\
  acc_totalCount c' = acc_totalCount c /\
  ((forall m, frame = Some m -> is_str (get_opt m "type") "error" = false) ->
   timeoutId c' = timeoutId c /\ settled c' = settled c /\ ws c' = ws c).
Proof.
  intros Hthrown c'. subst c'.
  split; [apply dropped_logged; exact Hthrown | ].
  destruct (dropped_keeps_accumulated engine this options c frame now e Hthrown) as [Hacc Htotal].
  split; [exact Hacc | ]. split; [exact Htotal | ].
  intros Hkind. apply (dropped_continues engine this options c frame now e Hthrown Hkind).
Qed.

Lemma dropped_frame_effect_witness :
  let c := run node sample_api sample_options 0
             [Open; Message (Some (result_frame three_profiles (VNum 3))) 5] in
  let c' := step node sample_api sample_options c
              (Message (Some (VObj [("type", VStr "result");
                                    ("data", VObj [("results", VNum 4)])])) 6) in
  acc_profiles c' = three_profiles /\ acc_totalCount c' = VNum 3 /\
  timeoutId c' = Armed 30000 /\ settled c' = Pending.
Proof.
  intros c c'.
  destruct (dropped_frame_effect node sample_api sample_options c
              (Some (VObj [("type", VStr "result"); ("data", VObj [("results", VNum 4)])]))
              6 TypeError eq_refl)
    as (_ & Hacc & Htotal & Hrest).
  destruct Hrest as (Htimer & Hsettled & _).
  { intros m [= <-]. reflexivity. }
  split; [exact Hacc | ]. split; [exact Htotal | ]. split; [exact Htimer | exact Hsettled].
Defined.

(** X13: every handler that can end the search disarms the deadline: after
    a [complete] or [error] frame (with or without data), a transport error,
    a [close] event or the deadline itself, the timer callback has no effect
    any more. *)
Theorem deadline_disarmed (engine : Engine) (this : LinkdAPI) (options : LinkdSearchOptions)
    (c : closure) (ev : event) (t : Z) :
  terminal ev = true \/ ev = Close ->
  step engine this options (step engine this options c ev) (Deadline t)
  = step engine this options c ev.
Proof.
  intros Hev. apply deadline_ignored. intros delay.
  destruct Hev as [Hterminal | ->].
  - destruct ev as [ | [m | ] t0 | e | | t0]; simpl in Hterminal; try discriminate.
    + unfold get_opt in Hterminal. run_handler. simpl.
      destruct (get_prop m "type") as [e | ty]; simpl in *; [discriminate | ].
      destruct ty as [ | | | | s | | ]; simpl in Hterminal; try discriminate. simpl.
      destruct (String.eqb s "result") eqn:Hresult.
      { apply String.eqb_eq in Hresult. subst s. discriminate. }
      destruct (String.eqb s "complete") eqn:Hcomplete; simpl.
      * destruct (timeoutId c) eqn:Hc; simpl; rewrite ?Hc; split_cases; discriminate.
      * simpl in Hterminal. rewrite Hterminal.
        destruct (timeoutId c) eqn:Hc; simpl; rewrite ?Hc; split_cases;
          rewrite ?Hc; discriminate.
    + run_handler. simpl.
      destruct (timeoutId c) eqn:Hc; simpl; rewrite ?Hc; split_cases;
        rewrite ?Hc; discriminate.
    + unfold step, dispatch. destruct (timeoutId c) eqn:Hc; simpl; rewrite ?Hc.
      * run_handler. simpl. split_cases; discriminate.
      * discriminate.
      * discriminate.
  - run_handler. simpl. destruct (timeoutId c) eqn:Hc; simpl; rewrite ?Hc; discriminate.
Qed.

Lemma deadline_disarmed_witness :
  step node sample_api sample_options
    (run node sample_api sample_options 0 [Open; Message (Some complete_frame) 9])
    (Deadline 30000)
  = run node sample_api sample_options 0 [Open; Message (Some complete_frame) 9].
Proof.
  apply (deadline_disarmed node sample_api sample_options
           (run node sample_api sample_options 0 [Open]) (Message (Some complete_frame) 9) 30000).
  left. reflexivity.
Defined.

(* ================================================================== *)
(** ** [findSharedInterests] *)

Lemma filter_shared_sound (all : list value) (interests : list string) (kept : list value) :
  filter_shared all interests = inr kept ->
  Forall (shares all interests) kept.
Proof.
  revert kept. induction all as [ | x all IH]; simpl; intros kept Hkept.
  - injection Hkept as <-. constructor.
  - destruct (some_included x interests) as [e | keep] eqn:Hx; [discriminate | ].
    destruct (filter_shared all interests) as [e | kept'] eqn:Hrest; [discriminate | ].
    injection Hkept as <-.
    assert (Htail : Forall (shares (x :: all) interests) kept').
    { eapply Forall_impl; [ | apply (IH kept' eq_refl)].
      intros y (Hin & s & i & Hy & Hi & Hinc).
      split; [right; exact Hin | ]. exists s, i. repeat split; assumption. }
    destruct keep; [ | exact Htail].
    constructor; [ | exact Htail].
    split; [left; reflexivity | ].
    unfold some_included in Hx.
    destruct interests as [ | i0 interests']; [discriminate | ].
    destruct x as [ | | | | s | | ]; try discriminate.
    assert (Hany : existsb (fun i => includes (toLowerCase s) (toLowerCase i))
                     (i0 :: interests') = true)
      by (injection Hx as Hx; exact Hx).
    apply existsb_exists in Hany. destruct Hany as (i & Hi & Hinc).
    exists s, i. repeat split; assumption.
Qed.

Lemma Forall_firstn {A} (P : A -> Prop) (n : nat) (xs : list A) :
  Forall P xs -> Forall P (firstn n xs).
Proof.
  revert n. induction xs as [ | x xs IH]; intros [ | n] Hxs; simpl; try constructor.
  - inversion Hxs; assumption.
  - apply IH. inversion Hxs; assumption.
Qed.

(** X14: on text below 128 (requested interests and the profile's string
    interests alike), when [findSharedInterests] returns, it returns at
    most three entries, each of them one of the profile's interests and
    each a string that contains one of the requested interests, the case
    of the letters A to Z aside. *)
Theorem findSharedInterests_sound (profile : value) (interests : list string)
    (all shared : list value) :
  get_prop profile "interests" = inr (VArr all) ->
  forallb ascii_text interests = true ->
  forallb ascii_value all = true ->
  findSharedInterests profile interests = inr shared ->
  List.length shared <= 3 /\ Forall (shares all interests) shared.
Proof.
  intros Hall _ _. unfold findSharedInterests. rewrite Hall.
  change (js_or (VArr all) (VArr [])) with (VArr all). cbv beta iota.
  destruct (filter_shared all interests) as [e | kept] eqn:Hkept; [discriminate | ].
  intros Hshared.
  assert (Hslice : shared = firstn 3 kept) by congruence.
  subst shared. split.
  - apply firstn_le_length.
  - apply Forall_firstn. apply filter_shared_sound. exact Hkept.
Qed.

Lemma findSharedInterests_sound_witness :
  findSharedInterests sample_bruin ["learning"; "ai"]
  = inr [VStr "Machine Learning"; VStr "AI Ethics"; VStr "Deep learning"] /\
  Forall (shares sample_interests ["learning"; "ai"])
    [VStr "Machine Learning"; VStr "AI Ethics"; VStr "Deep learning"].
Proof.
  split; [reflexivity | ].
  exact (proj2 (findSharedInterests_sound sample_bruin ["learning"; "ai"] sample_interests
                  [VStr "Machine Learning"; VStr "AI Ethics"; VStr "Deep learning"]
                  eq_refl eq_refl eq_refl eq_refl)).
Defined.

Lemma includes_empty (s : string) : includes s "" = true.
Proof. destruct s; reflexivity. Qed.

Lemma filter_shared_all (all : list value) (interests : list string) :
  In "" interests -> forallb is_string all = true ->
  filter_shared all interests = inr all.
Proof.
  intros Hempty. induction all as [ | x all IH]; simpl; intros Hall.
  - reflexivity.
  - apply andb_true_iff in Hall. destruct Hall as [Hx Hall].
    destruct x as [ | | | | s | | ]; try discriminate.
    unfold some_included. destruct interests as [ | i0 interests']; [destruct Hempty | ].
    assert (Hany : existsb (fun i => includes (toLowerCase s) (toLowerCase i))
                     (i0 :: interests') = true).
    { apply existsb_exists. exists "". split; [exact Hempty | apply includes_empty]. }
    rewrite Hany, (IH Hall). reflexivity.
Qed.

Lemma split_comma_trailing (text : string) :
  exists first init, split_comma (text ++ ",") = (first :: init ++ [""])%list.
Proof.
  induction text as [ | c text IH]; simpl.
  - exists "", []. reflexivity.
  - destruct IH as (first & init & IH). rewrite IH.
    destruct (Ascii.eqb c (Ascii.ascii_of_nat 44)).
    + exists "", (first :: init). reflexivity.
    + exists (String c first), init. reflexivity.
Qed.

(** X15: an empty item among the requested interests matches everything.
    The list the icebreaker tool builds from the user's text has such an
    item when the text is empty or ends in a comma, and then every profile
    whose interests are strings gets its first three interests reported as
    shared. *)
Theorem empty_interest_matches_everything (profile : value) (interests : list string)
    (all : list value) :
  (In "" (interestsList "") /\ forall text, In "" (interestsList (text ++ ","))) /\
  (In "" interests ->
   get_prop profile "interests" = inr (VArr all) ->
   forallb is_string all = true ->
   findSharedInterests profile interests = inr (firstn 3 all)).
Proof.
  split.
  - split; [left; reflexivity | ].
    intros text. unfold interestsList.
    destruct (split_comma_trailing text) as (first & init & Hsplit). rewrite Hsplit.
    change "" with (trim ""). apply in_map. right. apply in_or_app. right. left. reflexivity.
  - intros Hempty Hall Hstrings. unfold findSharedInterests. rewrite Hall. simpl.
    rewrite (filter_shared_all all interests Hempty Hstrings). reflexivity.
Qed.

Lemma empty_interest_matches_everything_witness :
  findSharedInterests sample_bruin (interestsList "chess,")
  = inr [VStr "Machine Learning"; VStr "Basketball"; VStr "AI Ethics"].
Proof.
  destruct (empty_interest_matches_everything sample_bruin (interestsList "chess,")
              sample_interests) as [[_ Htrailing] Hall].
  apply Hall.
  - apply (Htrailing "chess").
  - reflexivity.
  - reflexivity.
Defined.

Lemma filter_shared_none (all : list value) : filter_shared all [] = inr [].
Proof.
  induction all as [ | x all IH]; simpl; [reflexivity | rewrite IH; reflexivity].
Qed.

Lemma filter_shared_throws (all : list value) (interests : list string) (x : value) :
  interests <> [] -> In x all -> is_string x = false ->
  filter_shared all interests = inl TypeError.
Proof.
  intros Hsome. induction all as [ | y all IH]; simpl; intros Hin Hx.
  - destruct Hin.
  - destruct interests as [ | i0 interests']; [contradiction | ].
    destruct y as [ | | | | s | | ]; try reflexivity.
    destruct Hin as [<- | Hin]; [discriminate Hx | ].
    simpl. rewrite (IH Hin Hx). reflexivity.
Qed.

(** X16: edge behaviour of [findSharedInterests].  A profile whose
    [interests] is missing or falsy shares nothing; with no requested
    interest nothing is shared and the profile's entries are not even
    looked at; but with a requested interest, one entry of the profile that
    is not a string makes the whole call throw a [TypeError]. *)
Theorem findSharedInterests_edges (profile found : value) (interests : list string) :
  get_prop profile "interests" = inr found ->
  (truthy found = false -> findSharedInterests profile interests = inr []) /\
  (forall all, found = VArr all -> findSharedInterests profile [] = inr []) /\
  (forall all x,
      found = VArr all -> interests <> [] -> In x all -> is_string x = false ->
      findSharedInterests profile interests = inl TypeError).
Proof.
  intros Hfound. unfold findSharedInterests. rewrite Hfound. split; [ | split].
  - intros Hfalsy. unfold js_or. rewrite Hfalsy. simpl. reflexivity.
  - intros all ->. simpl. rewrite filter_shared_none. reflexivity.
  - intros all x -> Hsome Hin Hx. simpl.
    rewrite (filter_shared_throws all interests x Hsome Hin Hx). reflexivity.
Qed.

Lemma findSharedInterests_edges_witness :
  findSharedInterests (VObj [("name", VStr "Zoe")]) ["ai"] = inr [] /\
  findSharedInterests (VObj [("interests", VArr [VStr "AI"; VNum 7])]) ["ai"]
  = inl TypeError.
Proof.
  destruct (findSharedInterests_edges (VObj [("name", VStr "Zoe")]) VUndefined ["ai"]
              eq_refl) as (Hmissing & _ & _).
  destruct (findSharedInterests_edges (VObj [("interests", VArr [VStr "AI"; VNum 7])])
              (VArr [VStr "AI"; VNum 7]) ["ai"] eq_refl) as (_ & _ & Hthrows).
  split.
  - apply Hmissing. reflexivity.
  - apply (Hthrows [VStr "AI"; VNum 7] (VNum 7) eq_refl).
    + discriminate.
    + right. left. reflexivity.
    + reflexivity.
Defined.
